(** * Signaling relay of pyrosvisual-Screen-lite

    A shallow embedding of [src/server/websocket-server.js]
    (class [OptimizedWebSocketServer]) and the properties of its session
    table, message router, heartbeat monitor and lifecycle manager.

    Conventions of the embedding.
    - Identifiers (client ids, session ids, viewer ids) are strings, as the
      protocol carries them; JavaScript truthiness of a string ([""] is
      falsy) is kept, because several guards of the source rely on it.
    - A JavaScript [Map] keeps insertion order and the source iterates over
      [clients] and over a session's [viewers]; both are insertion-ordered
      association lists ([jm_get], [jm_set], [jm_delete]).  Maps that are
      only looked up are [gmap]s.
    - A [ws] object is a reference into [sockets], the transports the [ws]
      library has handed to the server; each carries its [readyState] and
      the [clientId] captured by the closures registered on it.
    - Every handler returns the new server state and the list of transport
      operations it performed, in program order.
    - [Date.now()] is an argument of the handlers, in integer milliseconds;
      one sweep of the health check reads the clock once. The viewer
      counters are natural numbers; the transferred-bytes counter and the
      counts of stats frames are JavaScript numbers, that is binary64
      floats.
    - A frame is the value [JSON.parse] yields; what is sent is the object
      handed to [JSON.stringify]. Payloads are compared as JSON values. *)

From stdpp Require Import gmap strings list.
From Stdlib Require Import ZArith Ascii DecimalString DecimalZ Floats.

Open Scope string_scope.
Open Scope list_scope.
Open Scope Z_scope.
Open Scope nat_scope.

(** ** Insertion-ordered maps (JavaScript [Map]) *)

Section jsmap.
Context {K V : Type} `{EqDecision K}.

Fixpoint jm_get (k : K) (m : list (K * V)) : option V :=
  match m with
  | [] => None
  | (k', v) :: m' => if decide (k = k') then Some v else jm_get k m'
  end.

(** [Map.prototype.set]: an existing key keeps its position. *)
Fixpoint jm_set (k : K) (v : V) (m : list (K * V)) : list (K * V) :=
  match m with
  | [] => [(k, v)]
  | (k', v') :: m' =>
      if decide (k = k') then (k, v) :: m' else (k', v') :: jm_set k v m'
  end.

Fixpoint jm_delete (k : K) (m : list (K * V)) : list (K * V) :=
  match m with
  | [] => []
  | (k', v') :: m' =>
      if decide (k = k') then jm_delete k m' else (k', v') :: jm_delete k m'
  end.

Definition jm_keys (m : list (K * V)) : list K := m.*1.
Definition jm_size (m : list (K * V)) : nat := length m.
End jsmap.

(** [new Set(l)]: duplicates are dropped, first occurrences keep their order. *)
Fixpoint js_set_of (seen l : list string) : list string :=
  match l with
  | [] => []
  | x :: l' =>
      if decide (x ∈ seen) then js_set_of seen l'
      else x :: js_set_of (x :: seen) l'
  end.

(** [Set.prototype.delete] *)
Definition js_set_delete (x : string) (s : list string) : list string :=
  filter (λ y, y ≠ x) s.

(** ** Data model *)

Definition WsRef := nat.

Inductive ReadyState := CONNECTING | OPEN | CLOSING | CLOSED.

Inductive Role := host | viewer.

(** Opaque negotiation and cursor payloads: parsed JSON values. *)
#[warnings="-register-all"]
Inductive Json :=
| JNull
| JBool (b : bool)
| JNum (n : Z)
| JStr (s : string)
| JArr (l : list Json)
| JObj (fields : list (string * Json)).

(** Entry of [this.clients]. [sessionId] and [type] start as [null],
    [viewerId] is absent until a viewer-join. *)
Record Client := mkClient {
  ws : WsRef;
  sessionId : option string;
  type : option Role;
  connectedAt : Z;
  lastPong : Z;
  viewerId : option string
}.

Record SessionStats := mkSessionStats {
  totalViewers : nat;
  peakViewers : nat;
  dataTransferred : float
}.

(** Entry of [this.sessions]. *)
Record Session := mkSession {
  hostClientId : string;
  hostWs : WsRef;
  viewers : list (string * WsRef);
  createdAt : Z;
  stats : SessionStats
}.

Record ServerStats := mkServerStats {
  totalConnections : nat;
  activeSessions : Z;
  startTime : Z
}.

(** A transport object of the [ws] library. *)
Record Socket := mkSocket {
  readyState : ReadyState;
  boundClientId : string
}.

Record Server := mkServer {
  sessions : gmap string Session;
  clientToSession : gmap string string;
  clientToViewerId : gmap string string;
  clients : list (string * Client);
  serverStats : ServerStats;
  sockets : list Socket
}.

(** The [d] field of a stats frame, as [handleStats] reads it.
    - [DMissing]: [d] is absent or [null], so that reading a property of
      it throws.
    - [DCount b]: any other [d]; [b] is its [bytesTransferred] when that is
      a number, and [None] when the property is absent (also on a [d] that
      is not an object) or is [null], [false] or the empty string, which
      the source treats alike. A [bytesTransferred] that is [true], a
      non-empty string, an array or an object is not represented. *)
Inductive StatsData :=
| DMissing
| DCount (bytesTransferred : option float).

(** Frames a client sends: the values [JSON.parse] yields other than
    [null], discriminated by [t]. [FOther] stands for every value with
    another [t] or with none; its argument is what the log prints. *)
Inductive Frame :=
| FHostReady (s : string)
| FViewerJoin (s uid : string)
| FOffer (s : string) (d : Json) (targetViewerId : string)
| FAnswer (s : string) (d : Json)
| FIceCandidate (s : string) (d : Json) (targetViewerId : string)
| FCursor (uid pos : Json)
| FStats (s : string) (d : StatsData)
| FPing
| FOther (t : string).

(** Frames the server sends (the objects passed to [JSON.stringify]). *)
Inductive OutFrame :=
| OHostReadyAck (s : string)
| OViewerJoined (viewerId : string) (viewerCount : nat)
| OViewerJoinedAck (s uid : string)
| OOffer (s : string) (d : Json) (hostId : string)
| OAnswer (s : string) (d : Json) (viewerId : string)
| OIceFromHost (s : string) (d : Json)
| OIceFromViewer (s : string) (d : Json) (viewerId : option string)
| OCursor (uid pos : Json)
| OHostDisconnected (s : string)
| OViewerCountChanged (s : string) (count : nat)
| OPong
| OError (message : string).

(** Operations on transports. *)
Inductive Action :=
| Send (w : WsRef) (f : OutFrame)
| Ping (w : WsRef)
| Terminate (w : WsRef).

Global Instance ReadyState_eq_dec : EqDecision ReadyState.
Proof. solve_decision. Defined.
Global Instance Role_eq_dec : EqDecision Role.
Proof. solve_decision. Defined.

(** ** Field updates *)

Definition set_sessions (f : gmap string Session → gmap string Session)
    (st : Server) : Server :=
  mkServer (f (sessions st)) (clientToSession st) (clientToViewerId st)
    (clients st) (serverStats st) (sockets st).

Definition set_clientToSession (f : gmap string string → gmap string string)
    (st : Server) : Server :=
  mkServer (sessions st) (f (clientToSession st)) (clientToViewerId st)
    (clients st) (serverStats st) (sockets st).

Definition set_clientToViewerId (f : gmap string string → gmap string string)
    (st : Server) : Server :=
  mkServer (sessions st) (clientToSession st) (f (clientToViewerId st))
    (clients st) (serverStats st) (sockets st).

Definition set_clients (f : list (string * Client) → list (string * Client))
    (st : Server) : Server :=
  mkServer (sessions st) (clientToSession st) (clientToViewerId st)
    (f (clients st)) (serverStats st) (sockets st).

Definition set_serverStats (f : ServerStats → ServerStats)
    (st : Server) : Server :=
  mkServer (sessions st) (clientToSession st) (clientToViewerId st)
    (clients st) (f (serverStats st)) (sockets st).

Definition set_sockets (f : list Socket → list Socket) (st : Server) : Server :=
  mkServer (sessions st) (clientToSession st) (clientToViewerId st)
    (clients st) (serverStats st) (f (sockets st)).

Definition add_activeSessions (d : Z) (s : ServerStats) : ServerStats :=
  mkServerStats (totalConnections s) (activeSessions s + d)%Z (startTime s).

Definition incr_totalConnections (s : ServerStats) : ServerStats :=
  mkServerStats (S (totalConnections s)) (activeSessions s) (startTime s).

(** ** Constants of the heartbeat *)

Definition PING_INTERVAL_MS : Z := 30000.
Definition PONG_TIMEOUT_MS : Z := 60000.

(** ** Transport helpers *)

(** [ws.readyState === WebSocket.OPEN] *)
Definition isOpen (st : Server) (w : WsRef) : bool :=
  match sockets st !! w with
  | Some sock => bool_decide (readyState sock = OPEN)
  | None => false
  end.

(** A string in a condition: [""] is falsy. *)
Definition truthy (s : string) : bool := negb (String.eqb s "").

(** [sendToClient(clientId, message)] *)
Definition sendToClient (st : Server) (clientId : string) (message : OutFrame)
    : list Action :=
  match jm_get clientId (clients st) with
  | Some client => if isOpen st (ws client) then [Send (ws client) message] else []
  | None => []
  end.

(** [sendError(ws, message)] *)
Definition sendError (st : Server) (w : WsRef) (message : string) : list Action :=
  if isOpen st w then [Send w (OError message)] else [].

(** [getViewerClientId(viewerWs)]: the first client, in insertion order,
    that owns the transport; [None] is the source's [null]. *)
Definition getViewerClientId (st : Server) (viewerWs : WsRef) : option string :=
  (λ r, r.2.1) <$> list_find (λ kv, ws kv.2 = viewerWs) (clients st).

(** [sendToClient(this.getViewerClientId(w), message)]; [clients.get(null)]
    is [undefined], so nothing is sent. *)
Definition sendToOwner (st : Server) (w : WsRef) (message : OutFrame)
    : list Action :=
  match getViewerClientId st w with
  | Some clientId => sendToClient st clientId message
  | None => []
  end.

(** ** Handlers of the message router *)

(** [handleHostReady(clientId, message)]; [now] is [Date.now()]. *)
Definition handleHostReady (now : Z) (st : Server) (clientId sessionId : string)
    : Server * list Action :=
  match jm_get clientId (clients st) with
  | None => (st, [])
  | Some client =>
      let st1 :=
        match sessions st !! sessionId with
        | None =>
            set_serverStats (add_activeSessions 1)
              (set_sessions
                 (insert sessionId
                    (mkSession clientId (ws client) [] now (mkSessionStats 0 0 0)))
                 st)
        | Some session =>
            set_sessions
              (insert sessionId
                 (mkSession clientId (ws client) (viewers session)
                    (createdAt session) (stats session)))
              st
        end in
      let client' :=
        mkClient (ws client) (Some sessionId) (Some host) (connectedAt client)
          (lastPong client) (viewerId client) in
      let st2 :=
        set_clientToSession (insert clientId sessionId)
          (set_clients (jm_set clientId client') st1) in
      (st2, sendToClient st2 clientId (OHostReadyAck sessionId))
  end.

(** [handleViewerJoin(clientId, message)]. [None] is the [TypeError] of
    [client.ws] on a missing client. *)
Definition handleViewerJoin (st : Server) (clientId sessionId viewerId : string)
    : option (Server * list Action) :=
  match jm_get clientId (clients st) with
  | None => None
  | Some client =>
      match sessions st !! sessionId with
      | None =>
          Some (st, sendError st (ws client) "Session not found or client invalid")
      | Some session =>
          let viewers' := jm_set viewerId (ws client) (viewers session) in
          let stats' :=
            mkSessionStats (S (totalViewers (stats session)))
              (Nat.max (peakViewers (stats session)) (jm_size viewers'))
              (dataTransferred (stats session)) in
          let session' :=
            mkSession (hostClientId session) (hostWs session) viewers'
              (createdAt session) stats' in
          let client' :=
            mkClient (ws client) (Some sessionId) (Some viewer)
              (connectedAt client) (lastPong client) (Some viewerId) in
          let st' :=
            set_clients (jm_set clientId client')
              (set_clientToViewerId (insert clientId viewerId)
                 (set_clientToSession (insert clientId sessionId)
                    (set_sessions (insert sessionId session') st))) in
          Some (st',
                sendToClient st' (hostClientId session)
                  (OViewerJoined viewerId (jm_size viewers'))
                ++ sendToClient st' clientId (OViewerJoinedAck sessionId viewerId))
      end
  end.

(** [handleOffer(clientId, message)] *)
Definition handleOffer (st : Server) (clientId sessionId : string) (offer : Json)
    (targetViewerId : string) : Server * list Action :=
  match sessions st !! sessionId with
  | None => (st, [])
  | Some session =>
      if decide (hostClientId session = clientId) then
        match jm_get targetViewerId (viewers session) with
        | Some targetViewerWs =>
            (st, sendToOwner st targetViewerWs (OOffer sessionId offer clientId))
        | None => (st, [])
        end
      else (st, [])
  end.

(** [handleAnswer(clientId, message)] *)
Definition handleAnswer (st : Server) (clientId sessionId : string) (answer : Json)
    : Server * list Action :=
  match sessions st !! sessionId, clientToViewerId st !! clientId with
  | Some session, Some viewerId =>
      if truthy viewerId then
        (st, sendToClient st (hostClientId session)
               (OAnswer sessionId answer viewerId))
      else (st, [])
  | _, _ => (st, [])
  end.

(** The session a client record points at, through the guards
    [!client.sessionId] and [!session]. *)
Definition sessionOf (st : Server) (client : Client) : option (string * Session) :=
  match sessionId client with
  | Some sid =>
      if truthy sid then
        match sessions st !! sid with
        | Some session => Some (sid, session)
        | None => None
        end
      else None
  | None => None
  end.

(** [handleIceCandidate(clientId, message)] *)
Definition handleIceCandidate (st : Server) (clientId sessionId : string)
    (candidate : Json) (targetViewerId : string) : Server * list Action :=
  match jm_get clientId (clients st) with
  | None => (st, [])
  | Some client =>
      match sessionOf st client with
      | None => (st, [])
      | Some (_, session) =>
          match type client with
          | Some host =>
              match jm_get targetViewerId (viewers session) with
              | Some viewerWs =>
                  (st, sendToOwner st viewerWs (OIceFromHost sessionId candidate))
              | None => (st, [])
              end
          | Some viewer =>
              (st, sendToClient st (hostClientId session)
                     (OIceFromViewer sessionId candidate (viewerId client)))
          | None => (st, [])
          end
      end
  end.

(** The recipients computed by [handleCursor]:
    [new Set([session.hostClientId, ...session.viewers.keys()])] minus the
    sender's client id. *)
Definition cursorRecipients (session : Session) (clientId : string) : list string :=
  js_set_delete clientId
    (js_set_of [] (hostClientId session :: jm_keys (viewers session))).

(** [handleCursor(clientId, message)] *)
Definition handleCursor (st : Server) (clientId : string) (uid pos : Json)
    : Server * list Action :=
  match jm_get clientId (clients st) with
  | None => (st, [])
  | Some client =>
      match sessionOf st client with
      | None => (st, [])
      | Some (_, session) =>
          (st, flat_map (λ recipientClientId,
                           sendToClient st recipientClientId (OCursor uid pos))
                 (cursorRecipients session clientId))
      end
  end.

(** A number in a condition: zero, minus zero and NaN are falsy. *)
Definition falsyNumber (x : float) : bool :=
  PrimFloat.is_nan x || PrimFloat.is_zero x.

(** [stats.bytesTransferred || 0] *)
Definition bytesOrZero (bytesTransferred : option float) : float :=
  match bytesTransferred with
  | Some x => if falsyNumber x then 0%float else x
  | None => 0%float
  end.

(** [handleStats(clientId, message)]. [None] is the [TypeError] of
    [stats.bytesTransferred] on a [d] that is absent or [null]; it is only
    reached when the session exists. The addition is the one of JavaScript
    numbers. *)
Definition handleStats (st : Server) (clientId sessionId : string)
    (d : StatsData) : option (Server * list Action) :=
  match sessions st !! sessionId with
  | Some session =>
      match d with
      | DMissing => None
      | DCount bytesTransferred =>
          let stats' :=
            mkSessionStats (totalViewers (stats session))
              (peakViewers (stats session))
              (dataTransferred (stats session) + bytesOrZero bytesTransferred)%float in
          Some (set_sessions
                  (insert sessionId
                     (mkSession (hostClientId session) (hostWs session)
                        (viewers session) (createdAt session) stats'))
                  st, [])
      end
  | None => Some (st, [])
  end.

(** [handleMessage(clientId, message)] *)
Definition handleMessage (now : Z) (st : Server) (clientId : string)
    (message : Frame) : option (Server * list Action) :=
  match jm_get clientId (clients st) with
  | None => Some (st, [])
  | Some _ =>
      match message with
      | FHostReady s => Some (handleHostReady now st clientId s)
      | FViewerJoin s uid => handleViewerJoin st clientId s uid
      | FOffer s d target => Some (handleOffer st clientId s d target)
      | FAnswer s d => Some (handleAnswer st clientId s d)
      | FIceCandidate s d target => Some (handleIceCandidate st clientId s d target)
      | FCursor uid pos => Some (handleCursor st clientId uid pos)
      | FStats s d => handleStats st clientId s d
      | FPing => Some (st, sendToClient st clientId OPong)
      | FOther _ => Some (st, [])
      end
  end.

(** ** Lifecycle manager *)

(** The session part of [handleDisconnection], for a client found in the
    registry. *)
Definition disconnectSession (st : Server) (client : Client)
    : Server * list Action :=
  match sessionOf st client with
  | None => (st, [])
  | Some (sid, session) =>
      match type client with
      | Some host =>
          (set_serverStats (add_activeSessions (-1))
             (set_sessions (delete sid) st),
           flat_map (λ kv, sendToOwner st kv.2 (OHostDisconnected sid))
             (viewers session))
      | Some viewer =>
          let viewers' :=
            match viewerId client with
            | Some v => jm_delete v (viewers session)
            | None => viewers session
            end in
          let st' :=
            set_sessions
              (insert sid
                 (mkSession (hostClientId session) (hostWs session) viewers'
                    (createdAt session) (stats session)))
              st in
          (st', sendToClient st' (hostClientId session)
                  (OViewerCountChanged sid (jm_size viewers')))
      | None => (st, [])
      end
  end.

(** [handleDisconnection(clientId, code, reason)] *)
Definition handleDisconnection (st : Server) (clientId : string)
    : Server * list Action :=
  let '(st1, acts) :=
    match jm_get clientId (clients st) with
    | Some client => disconnectSession st client
    | None => (st, [])
    end in
  (set_clientToViewerId (delete clientId)
     (set_clientToSession (delete clientId)
        (set_clients (jm_delete clientId) st1)),
   acts).

(** ** Heartbeat monitor *)

(** [ws.terminate()] of the [ws] library on an open transport: the state
    becomes CLOSING and the socket is destroyed; the close event follows. *)
Definition terminate (st : Server) (w : WsRef) : Server :=
  match sockets st !! w with
  | Some sock =>
      set_sockets (λ l, <[w := mkSocket CLOSING (boundClientId sock)]> l) st
  | None => st
  end.

(** Body of the [forEach] callback of the health check. *)
Definition healthCheckVisit (now : Z) (acc : Server * list Action)
    (entry : string * Client) : Server * list Action :=
  let '(st, acts) := acc in
  let '(clientId, client) := entry in
  if isOpen st (ws client) then
    if (PONG_TIMEOUT_MS <? now - lastPong client)%Z then
      (terminate st (ws client), acts ++ [Terminate (ws client)])
    else (st, acts ++ [Ping (ws client)])
  else (set_clients (jm_delete clientId) st, acts).

(** One firing of the first interval of [setupHealthCheck]. *)
Definition healthCheck (now : Z) (st : Server) : Server * list Action :=
  foldl (healthCheckVisit now) (st, []) (clients st).

(** The pong listener of a connection. *)
Definition onPong (now : Z) (st : Server) (clientId : string) : Server :=
  match jm_get clientId (clients st) with
  | Some client =>
      set_clients
        (jm_set clientId
           (mkClient (ws client) (sessionId client) (type client)
              (connectedAt client) now (viewerId client)))
        st
  | None => st
  end.

(** ** Events *)

(** What the event loop can deliver to the server. A transport event names
    the [ws] object it fires on. *)
Inductive Event :=
| EvConnect (clientId : string)          (* connection, with the generated id *)
| EvMessage (w : WsRef) (data : option Frame)
    (* [None]: [JSON.parse] throws, or yields [null] so that [message.t] throws *)
| EvClosing (w : WsRef)                  (* the transport starts closing *)
| EvClose (w : WsRef)                    (* close event *)
| EvError (w : WsRef)                    (* error event: logged only *)
| EvPong (w : WsRef)
| EvHealthCheck.

(** The connection listener of [setupWebSocketHandlers]. *)
Definition onConnection (now : Z) (st : Server) (clientId : string) : Server :=
  let w := length (sockets st) in
  set_serverStats incr_totalConnections
    (set_clients (jm_set clientId (mkClient w None None now now None))
       (set_sockets (λ l, l ++ [mkSocket OPEN clientId]) st)).

(** The message listener: [JSON.parse], [handleMessage], and the [catch]. *)
Definition onMessage (now : Z) (st : Server) (w : WsRef) (clientId : string)
    (data : option Frame) : Server * list Action :=
  match data with
  | Some message =>
      match handleMessage now st clientId message with
      | Some r => r
      | None => (st, sendError st w "Invalid message format")
      end
  | None => (st, sendError st w "Invalid message format")
  end.

Definition setReadyState (rs : ReadyState) (w : WsRef) (st : Server) : Server :=
  match sockets st !! w with
  | Some sock => set_sockets (λ l, <[w := mkSocket rs (boundClientId sock)]> l) st
  | None => st
  end.

(** One event. A transport emits its close event once and nothing after it;
    the close listener is [handleDisconnection], whatever closed the
    transport. *)
Definition step (now : Z) (st : Server) (ev : Event) : Server * list Action :=
  match ev with
  | EvConnect clientId => (onConnection now st clientId, [])
  | EvMessage w data =>
      match sockets st !! w with
      | Some sock =>
          if bool_decide (readyState sock = CLOSED) then (st, [])
          else onMessage now st w (boundClientId sock) data
      | None => (st, [])
      end
  | EvClosing w =>
      (if isOpen st w then setReadyState CLOSING w st else st, [])
  | EvClose w =>
      match sockets st !! w with
      | Some sock =>
          if bool_decide (readyState sock = CLOSED) then (st, [])
          else handleDisconnection (setReadyState CLOSED w st) (boundClientId sock)
      | None => (st, [])
      end
  | EvError _ => (st, [])
  | EvPong w =>
      match sockets st !! w with
      | Some sock =>
          if bool_decide (readyState sock = CLOSED) then (st, [])
          else (onPong now st (boundClientId sock), [])
      | None => (st, [])
      end
  | EvHealthCheck => healthCheck now st
  end.

(** The server right after construction. *)
Definition initial (now : Z) : Server :=
  mkServer ∅ ∅ ∅ [] (mkServerStats 0 0 now) [].

(** A run: timed events delivered in order, with everything sent. *)
Fixpoint run (st : Server) (evs : list (Z * Event)) : Server * list Action :=
  match evs with
  | [] => (st, [])
  | (now, ev) :: evs' =>
      let '(st1, a1) := step now st ev in
      let '(st2, a2) := run st1 evs' in
      (st2, a1 ++ a2)
  end.

Inductive reachable : Server → Prop :=
| reach_initial now : reachable (initial now)
| reach_step st now ev : reachable st → reachable (step now st ev).1.

(** ** Predicates used by the properties *)

(** A session record [new] written over the previous content [old] of its
    slot: a fresh record has no viewers; an updated one keeps or raises the
    peak, and its viewer map shrinks, stays, or is covered by the new peak. *)
Definition session_evolves (old : option Session) (new : Session) : Prop :=
  match old with
  | None => viewers new = []
  | Some session =>
      peakViewers (stats session) ≤ peakViewers (stats new)
      ∧ (jm_size (viewers new) ≤ jm_size (viewers session)
         ∨ jm_size (viewers new) ≤ peakViewers (stats new))
  end.

Inductive sessions_step (m m' : gmap string Session) : Prop :=
| sessions_same : m' = m → sessions_step m m'
| sessions_removed s : m' = delete s m → sessions_step m m'
| sessions_written s new :
    m' = <[s := new]> m → session_evolves (m !! s) new → sessions_step m m'.

Definition peak_covers_viewers (st : Server) : Prop :=
  ∀ s session, sessions st !! s = Some session →
    jm_size (viewers session) ≤ peakViewers (stats session).

(** Client ids are the keys of a map, every registered client has its own
    transport, and every transport it names has been handed out. *)
Definition registry_wf (st : Server) : Prop :=
  NoDup (jm_keys (clients st))
  ∧ NoDup ((λ kv, ws kv.2) <$> clients st)
  ∧ ∀ kv, kv ∈ clients st → ws kv.2 < length (sockets st).

(** What the health check does to one registry entry, read in the state
    the sweep starts from. *)
Definition healthCheckAction (now : Z) (st : Server) (entry : string * Client)
    : list Action :=
  if isOpen st (ws entry.2) then
    if (PONG_TIMEOUT_MS <? now - lastPong entry.2)%Z then [Terminate (ws entry.2)]
    else [Ping (ws entry.2)]
  else [].

(** ** Scenarios of the specification, as event sequences *)

(** Three connections; the first announces session "abc", the other two
    join it as "v1" and "v2" (scenarios A, B and F). *)
Definition scenario_joined : list (Z * Event) :=
  [ (0%Z, EvConnect "client_h"); (1%Z, EvConnect "client_v1");
    (2%Z, EvConnect "client_v2");
    (3%Z, EvMessage 0 (Some (FHostReady "abc")));
    (4%Z, EvMessage 1 (Some (FViewerJoin "abc" "v1")));
    (5%Z, EvMessage 2 (Some (FViewerJoin "abc" "v2"))) ].

Definition joined : Server := (run (initial 0) scenario_joined).1.

(** A host and one viewer "v1", and a third connection that has sent
    nothing yet. *)
Definition scenario_one_viewer : list (Z * Event) :=
  [ (0%Z, EvConnect "client_h"); (1%Z, EvConnect "client_v1");
    (2%Z, EvConnect "client_x");
    (3%Z, EvMessage 0 (Some (FHostReady "abc")));
    (4%Z, EvMessage 1 (Some (FViewerJoin "abc" "v1"))) ].

Definition one_viewer : Server := (run (initial 0) scenario_one_viewer).1.

(** A host reconnects: "client_a" announces "abc", "v1" joins, "client_b"
    announces "abc" again, then the transport of "client_a" closes. *)
Definition scenario_reconnect : list (Z * Event) :=
  [ (0%Z, EvConnect "client_a"); (1%Z, EvConnect "client_b");
    (2%Z, EvConnect "client_v1");
    (3%Z, EvMessage 0 (Some (FHostReady "abc")));
    (4%Z, EvMessage 2 (Some (FViewerJoin "abc" "v1")));
    (5%Z, EvMessage 1 (Some (FHostReady "abc"))) ].

Definition reconnected : Server := (run (initial 0) scenario_reconnect).1.

(** A viewer joins twice: "client_v1" joins "abc" as "v1" and then "xyz"
    (announced by "client_x") as "v9". *)
Definition scenario_rejoined : list (Z * Event) :=
  [ (0%Z, EvConnect "client_h"); (1%Z, EvConnect "client_v1");
    (2%Z, EvConnect "client_x");
    (3%Z, EvMessage 0 (Some (FHostReady "abc")));
    (4%Z, EvMessage 2 (Some (FHostReady "xyz")));
    (5%Z, EvMessage 1 (Some (FViewerJoin "abc" "v1")));
    (6%Z, EvMessage 1 (Some (FViewerJoin "xyz" "v9"))) ].

Definition rejoined : Server := (run (initial 0) scenario_rejoined).1.



(** Two connections that have sent nothing yet. *)
Definition two_connected : Server :=
  (run (initial 0) [(0%Z, EvConnect "client_h"); (1%Z, EvConnect "client_v1")]).1.

(** Scenario F, after which the host's transport has started closing. *)
Definition host_closing : Server := (step 6 joined (EvClosing 0)).1.

(** ** Observability: [getStats] and [formatUptime] *)

(** [Number.MAX_SAFE_INTEGER]: up to it, integers are exact as JavaScript
    numbers. *)
Definition MAX_SAFE_INTEGER : Z := (2 ^ 53 - 1)%Z.

(** [Number.prototype.toString()] of an integer: decimal digits, a leading
    "-" for a negative number. *)
Definition numberToString (n : Z) : string :=
  NilZero.string_of_int (Z.to_int n).

(** [String.prototype.padStart(targetLength, padString)] with a pad string
    of one character, as the source calls it. *)
Definition padStart (targetLength : nat) (pad : Ascii.ascii) (s : string) : string :=
  String.append
    (String.string_of_list_ascii (replicate (targetLength - String.length s) pad)) s.

(** [formatUptime(ms)]: [Math.floor] of a quotient is [Z.div], the
    remainder operator [%] is [Z.rem]. *)
Definition formatUptime (ms : Z) : string :=
  let seconds := (ms / 1000)%Z in
  let minutes := (seconds / 60)%Z in
  let hours := (minutes / 60)%Z in
  String.append (padStart 2 "0"%char (numberToString hours))
    (String.append ":"
       (String.append (padStart 2 "0"%char (numberToString (Z.rem minutes 60)))
          (String.append ":"
             (padStart 2 "0"%char (numberToString (Z.rem seconds 60)))))).

(** The number a string of decimal digits denotes, leading zeros allowed;
    used to read the fields of an uptime text back. *)
Definition decimalValue (s : string) : option Z :=
  Z.of_uint <$> NilEmpty.uint_of_string s.

(** The object [getStats()] returns. *)
Module Report.
Record t := mk {
  activeSessions : Z;
  connectedClients : nat;
  totalConnections : nat;
  uptime : string;
  memoryUsage : Json
}.
End Report.

(** [getStats()]; [now] is [Date.now()] and [memoryUsage] what
    [process.memoryUsage()] returns. *)
Definition getStats (now : Z) (memoryUsage : Json) (st : Server) : Report.t :=
  Report.mk (activeSessions (serverStats st)) (jm_size (clients st))
    (totalConnections (serverStats st))
    (formatUptime (now - startTime (serverStats st))) memoryUsage.

(** ** Further predicates *)

(** The transport an operation acts on. *)
Definition actionTarget (a : Action) : WsRef :=
  match a with Send w _ | Ping w | Terminate w => w end.

(** Every operation of [acts] is on a transport that is open in [st]. *)
Definition acts_open (st : Server) (acts : list Action) : Prop :=
  Forall (λ a, isOpen st (actionTarget a) = true) acts.


(** Frames the router only relays or answers. *)
Definition relayOnly (message : Frame) : bool :=
  match message with
  | FHostReady _ | FViewerJoin _ _ | FStats _ _ => false
  | _ => true
  end.

(** The record the handlers write into a slot of the session table, given
    what the slot held. *)
Inductive session_write : option Session → Session → Prop :=
| write_created c w now :
    session_write None (mkSession c w [] now (mkSessionStats 0 0 0))
| write_host session c w :
    session_write (Some session)
      (mkSession c w (viewers session) (createdAt session) (stats session))
| write_joined session uid w :
    session_write (Some session)
      (mkSession (hostClientId session) (hostWs session)
         (jm_set uid w (viewers session)) (createdAt session)
         (mkSessionStats (S (totalViewers (stats session)))
            (Nat.max (peakViewers (stats session))
               (jm_size (jm_set uid w (viewers session))))
            (dataTransferred (stats session))))
| write_stats session (b : float) :
    session_write (Some session)
      (mkSession (hostClientId session) (hostWs session) (viewers session)
         (createdAt session)
         (mkSessionStats (totalViewers (stats session))
            (peakViewers (stats session))
            (dataTransferred (stats session) + b)%float))
| write_left session v :
    session_write (Some session)
      (mkSession (hostClientId session) (hostWs session)
         (jm_delete v (viewers session)) (createdAt session) (stats session)).

(** How one event moves the session table and the session counter. *)
Inductive table_step (st st' : Server) : Prop :=
| table_same :
    sessions st' = sessions st →
    activeSessions (serverStats st') = activeSessions (serverStats st) →
    table_step st st'
| table_removed s session :
    sessions st !! s = Some session →
    sessions st' = delete s (sessions st) →
    activeSessions (serverStats st') = (activeSessions (serverStats st) - 1)%Z →
    table_step st st'
| table_created s new :
    sessions st !! s = None → session_write None new →
    sessions st' = <[s := new]> (sessions st) →
    activeSessions (serverStats st') = (activeSessions (serverStats st) + 1)%Z →
    table_step st st'
| table_updated s old new :
    sessions st !! s = Some old → session_write (Some old) new →
    sessions st' = <[s := new]> (sessions st) →
    activeSessions (serverStats st') = activeSessions (serverStats st) →
    table_step st st'.

(** The session counter is the number of sessions in the table. *)
Definition sessions_counted (st : Server) : Prop :=
  activeSessions (serverStats st) = Z.of_nat (size (sessions st)).

(** The registry never holds more clients than connections were accepted. *)
Definition registry_counted (st : Server) : Prop :=
  jm_size (clients st) ≤ totalConnections (serverStats st).

(** What an event other than a connection does to the size of the registry
    and to the connection counter. *)
Definition registry_shrinks (st st' : Server) : Prop :=
  jm_size (clients st') ≤ jm_size (clients st)
  ∧ totalConnections (serverStats st') = totalConnections (serverStats st).

(** Per session: viewer ids are distinct, and
    size of the viewer map <= peak <= total joins. *)
Definition session_sound (session : Session) : Prop :=
  NoDup (jm_keys (viewers session))
  ∧ jm_size (viewers session) ≤ peakViewers (stats session)
  ∧ peakViewers (stats session) ≤ totalViewers (stats session).

(** * Properties *)

(** ** Insertion-ordered maps *)

Section jsmap_facts.
Context {K V : Type} `{EqDecision K}.
Implicit Types (k : K) (v : V) (m : list (K * V)).

Lemma jm_get_set_eq k v m : jm_get k (jm_set k v m) = Some v.
Proof.
  induction m as [|[k' v'] m IH]; simpl.
  - by rewrite decide_True.
  - destruct (decide (k = k')) as [->|Hne]; simpl.
    + by rewrite decide_True.
    + by rewrite decide_False.
Qed.

Lemma jm_get_set_ne k k' v m :
  k ≠ k' → jm_get k' (jm_set k v m) = jm_get k' m.
Proof.
  intros Hne. induction m as [|[k0 v0] m IH]; simpl.
  - rewrite decide_False; [done|congruence].
  - destruct (decide (k = k0)) as [->|Hk]; simpl.
    + rewrite !decide_False; [done|congruence..].
    + destruct (decide (k' = k0)); [done|apply IH].
Qed.

Lemma jm_get_delete_eq k m : jm_get k (jm_delete k m) = None.
Proof.
  induction m as [|[k' v'] m IH]; simpl; [done|].
  destruct (decide (k = k')); simpl; [done|].
  by rewrite decide_False.
Qed.

Lemma jm_get_delete_ne k k' m :
  k ≠ k' → jm_get k' (jm_delete k m) = jm_get k' m.
Proof.
  intros Hne. induction m as [|[k0 v0] m IH]; simpl; [done|].
  destruct (decide (k = k0)) as [->|Hk]; simpl.
  - rewrite decide_False; [done|congruence].
  - destruct (decide (k' = k0)); [done|apply IH].
Qed.

Lemma jm_size_set_le k v m : jm_size (jm_set k v m) ≤ S (jm_size m).
Proof.
  unfold jm_size. induction m as [|[k' v'] m IH]; simpl; [lia|].
  destruct (decide (k = k')); simpl; lia.
Qed.

Lemma jm_size_set_present k v v0 m :
  jm_get k m = Some v0 → jm_size (jm_set k v m) = jm_size m.
Proof.
  unfold jm_size. induction m as [|[k' v'] m IH]; simpl; [done|].
  destruct (decide (k = k')); simpl; [done|]. intros Hm. by rewrite IH.
Qed.

Lemma jm_size_delete_le k m : jm_size (jm_delete k m) ≤ jm_size m.
Proof.
  unfold jm_size. induction m as [|[k' v'] m IH]; simpl; [lia|].
  destruct (decide (k = k')); simpl; lia.
Qed.

Lemma jm_get_Some_elem_of k v m : jm_get k m = Some v → (k, v) ∈ m.
Proof.
  induction m as [|[k' v'] m IH]; simpl; [done|].
  destruct (decide (k = k')) as [->|Hne].
  - intros [= ->]. apply list_elem_of_here.
  - intros Hm. apply list_elem_of_further. by apply IH.
Qed.

Lemma jm_get_None_keys k m : jm_get k m = None ↔ k ∉ jm_keys m.
Proof.
  unfold jm_keys. induction m as [|[k' v'] m IH]; simpl.
  - split; [intros _; apply not_elem_of_nil|done].
  - destruct (decide (k = k')) as [->|Hne].
    + split; [done|]. intros []. apply list_elem_of_here.
    + rewrite IH, not_elem_of_cons. tauto.
Qed.

Lemma jm_elem_of_get k v m : NoDup (jm_keys m) → (k, v) ∈ m → jm_get k m = Some v.
Proof.
  unfold jm_keys. induction m as [|[k' v'] m IH]; simpl.
  - intros _ Hin. by apply elem_of_nil in Hin.
  - intros [Hk Hnd]%NoDup_cons [[= -> ->]|Hin]%elem_of_cons.
    + by rewrite decide_True.
    + destruct (decide (k = k')) as [->|Hne]; [|by apply IH].
      destruct Hk. apply list_elem_of_fmap. by exists (k', v).
Qed.
End jsmap_facts.

(** ** How one event changes the session table *)

Lemma handleHostReady_sessions now st c s :
  sessions_step (sessions st) (sessions (handleHostReady now st c s).1).
Proof.
  unfold handleHostReady.
  destruct (jm_get c (clients st)) as [client|]; [|by apply sessions_same].
  destruct (sessions st !! s) as [session|] eqn:Hs; simpl.
  - eapply sessions_written; [done|]. rewrite Hs. simpl. split; [lia|left; lia].
  - eapply sessions_written; [done|]. by rewrite Hs.
Qed.

Lemma handleViewerJoin_sessions st c s uid r :
  handleViewerJoin st c s uid = Some r →
  sessions_step (sessions st) (sessions r.1).
Proof.
  unfold handleViewerJoin.
  destruct (jm_get c (clients st)) as [client|]; [|done].
  destruct (sessions st !! s) as [session|] eqn:Hs; intros [= <-]; simpl.
  - eapply sessions_written; [done|]. rewrite Hs. simpl. split; [lia|right; lia].
  - by apply sessions_same.
Qed.

Lemma handleStats_sessions st c s d r :
  handleStats st c s d = Some r →
  sessions_step (sessions st) (sessions r.1).
Proof.
  unfold handleStats.
  destruct (sessions st !! s) as [session|] eqn:Hs; [destruct d; [done|]|];
    intros [= <-]; simpl.
  - eapply sessions_written; [done|]. rewrite Hs. simpl. split; [lia|left; lia].
  - by apply sessions_same.
Qed.

Lemma handleOffer_state st c s d target : (handleOffer st c s d target).1 = st.
Proof. unfold handleOffer. by repeat case_match. Qed.

Lemma handleAnswer_state st c s d : (handleAnswer st c s d).1 = st.
Proof. unfold handleAnswer. by repeat case_match. Qed.

Lemma handleIceCandidate_state st c s d target :
  (handleIceCandidate st c s d target).1 = st.
Proof. unfold handleIceCandidate. by repeat case_match. Qed.

Lemma handleCursor_state st c uid pos : (handleCursor st c uid pos).1 = st.
Proof. unfold handleCursor. by repeat case_match. Qed.

Lemma handleMessage_sessions now st c msg r :
  handleMessage now st c msg = Some r →
  sessions_step (sessions st) (sessions r.1).
Proof.
  unfold handleMessage.
  destruct (jm_get c (clients st)); [|intros [= <-]; by apply sessions_same].
  destruct msg; try (intros [= <-]).
  - apply handleHostReady_sessions.
  - apply handleViewerJoin_sessions.
  - rewrite handleOffer_state. by apply sessions_same.
  - rewrite handleAnswer_state. by apply sessions_same.
  - rewrite handleIceCandidate_state. by apply sessions_same.
  - rewrite handleCursor_state. by apply sessions_same.
  - apply handleStats_sessions.
  - by apply sessions_same.
  - by apply sessions_same.
Qed.

Lemma disconnectSession_sessions st client :
  sessions_step (sessions st) (sessions (disconnectSession st client).1).
Proof.
  unfold disconnectSession, sessionOf.
  destruct (sessionId client) as [sid|]; [|by apply sessions_same].
  destruct (truthy sid); [|by apply sessions_same].
  destruct (sessions st !! sid) as [session|] eqn:Hs; [|by apply sessions_same].
  destruct (type client) as [[]|]; simpl.
  - by eapply sessions_removed.
  - eapply sessions_written; [done|]. rewrite Hs. simpl. split; [lia|left].
    destruct (viewerId client); [apply jm_size_delete_le|lia].
  - by apply sessions_same.
Qed.

Lemma handleDisconnection_sessions st c :
  sessions (handleDisconnection st c).1
  = sessions (match jm_get c (clients st) with
              | Some client => disconnectSession st client
              | None => (st, [])
              end).1.
Proof. unfold handleDisconnection. by case_match. Qed.

Lemma healthCheckVisit_sessions now acc entry :
  sessions (healthCheckVisit now acc entry).1 = sessions acc.1.
Proof.
  destruct acc as [st acts], entry as [c client]. unfold healthCheckVisit, terminate.
  repeat case_match; done.
Qed.

Lemma healthCheck_fold_sessions now l acc :
  sessions (foldl (healthCheckVisit now) acc l).1 = sessions acc.1.
Proof.
  revert acc. induction l as [|e l IH]; intros acc; [done|].
  simpl. rewrite IH. apply healthCheckVisit_sessions.
Qed.

Lemma healthCheck_sessions now st : sessions (healthCheck now st).1 = sessions st.
Proof. apply healthCheck_fold_sessions. Qed.

Lemma setReadyState_sessions rs w st : sessions (setReadyState rs w st) = sessions st.
Proof. unfold setReadyState. by case_match. Qed.

Lemma setReadyState_clients rs w st : clients (setReadyState rs w st) = clients st.
Proof. unfold setReadyState. by case_match. Qed.

Lemma step_sessions now st ev :
  sessions_step (sessions st) (sessions (step now st ev).1).
Proof.
  destruct ev as [c|w data|w|w|w|w|]; simpl.
  - by apply sessions_same.
  - destruct (sockets st !! w) as [sock|]; [|by apply sessions_same].
    case_bool_decide; [by apply sessions_same|].
    unfold onMessage. destruct data as [msg|]; [|by apply sessions_same].
    destruct (handleMessage now st (boundClientId sock) msg) as [r|] eqn:Hr;
      [|by apply sessions_same].
    by eapply handleMessage_sessions.
  - apply sessions_same. case_match; [apply setReadyState_sessions|done].
  - destruct (sockets st !! w) as [sock|]; [|by apply sessions_same].
    case_bool_decide; [by apply sessions_same|].
    rewrite handleDisconnection_sessions, setReadyState_clients.
    destruct (jm_get _ _) as [client|].
    + rewrite <-(setReadyState_sessions CLOSED w st) at 1.
      apply disconnectSession_sessions.
    + apply sessions_same, setReadyState_sessions.
  - by apply sessions_same.
  - destruct (sockets st !! w) as [sock|]; [|by apply sessions_same].
    case_bool_decide; [by apply sessions_same|].
    apply sessions_same. unfold onPong. by case_match.
  - apply sessions_same, healthCheck_sessions.
Qed.

(** ** Peak-viewer counter *)

Lemma sessions_step_peak_covers m m' :
  sessions_step m m' →
  (∀ s session, m !! s = Some session →
     jm_size (viewers session) ≤ peakViewers (stats session)) →
  ∀ s session, m' !! s = Some session →
    jm_size (viewers session) ≤ peakViewers (stats session).
Proof.
  intros [->|s0 ->|s0 new -> Hev] Hinv s session Hs.
  - by eapply Hinv.
  - apply lookup_delete_Some in Hs as [_ Hs]. by eapply Hinv.
  - apply lookup_insert_Some in Hs as [[<- <-]|[_ Hs]]; [|by eapply Hinv].
    unfold session_evolves in Hev. destruct (m !! s0) as [old|] eqn:Hold.
    + destruct Hev as [Hpeak [Hle|Hle]]; [|done].
      specialize (Hinv _ _ Hold). lia.
    + rewrite Hev. simpl. lia.
Qed.

Lemma sessions_step_peak_mono m m' s session session' :
  sessions_step m m' →
  m !! s = Some session → m' !! s = Some session' →
  peakViewers (stats session) ≤ peakViewers (stats session').
Proof.
  intros [->|s0 ->|s0 new -> Hev] Hs Hs'.
  - by simplify_eq.
  - apply lookup_delete_Some in Hs' as [_ Hs']. by simplify_eq.
  - apply lookup_insert_Some in Hs' as [[<- <-]|[_ Hs']]; [|by simplify_eq].
    unfold session_evolves in Hev. rewrite Hs in Hev. tauto.
Qed.

Lemma reachable_peak_covers st : reachable st → peak_covers_viewers st.
Proof.
  induction 1 as [now|st now ev _ IH].
  - intros s session Hs. simpl in Hs. by rewrite lookup_empty in Hs.
  - unfold peak_covers_viewers.
    eapply sessions_step_peak_covers; [apply step_sessions|exact IH].
Qed.

(** ** The connection registry in reachable states *)

Section registry_lemmas.
Implicit Types (m : list (string * Client)) (c : string) (cl : Client).

Lemma jm_delete_sublist c m : jm_delete c m `sublist_of` m.
Proof.
  induction m as [|[k v] m IH]; simpl; [done|].
  destruct (decide (c = k)); [by apply sublist_cons|by apply sublist_skip].
Qed.

Lemma jm_set_present_keys c cl cl0 m :
  jm_get c m = Some cl0 → jm_keys (jm_set c cl m) = jm_keys m.
Proof.
  unfold jm_keys. induction m as [|[k v] m IH]; simpl; [done|].
  destruct (decide (c = k)) as [->|Hne]; simpl; [done|].
  intros Hm. f_equal. by apply IH.
Qed.

Lemma jm_set_present_ws c cl cl0 m :
  jm_get c m = Some cl0 → ws cl = ws cl0 →
  (λ kv, ws kv.2) <$> jm_set c cl m = (λ kv, ws kv.2) <$> m.
Proof.
  induction m as [|[k v] m IH]; simpl; [done|].
  destruct (decide (c = k)) as [->|Hne]; simpl.
  - intros [= ->] ->. done.
  - intros Hm Hw. f_equal. by apply IH.
Qed.

Lemma jm_set_elem_of c cl m kv :
  kv ∈ jm_set c cl m → kv = (c, cl) ∨ kv ∈ m.
Proof.
  induction m as [|[k v] m IH]; simpl.
  - intros ->%list_elem_of_singleton. by left.
  - destruct (decide (c = k)) as [->|Hne].
    + intros [->|Hin]%elem_of_cons; [by left|right; by apply list_elem_of_further].
    + intros [->|Hin]%elem_of_cons; [right; apply list_elem_of_here|].
      destruct (IH Hin); [by left|right; by apply list_elem_of_further].
Qed.

Lemma jm_set_keys_NoDup c cl m : NoDup (jm_keys m) → NoDup (jm_keys (jm_set c cl m)).
Proof.
  unfold jm_keys. induction m as [|[k v] m IH]; simpl.
  - intros _. apply NoDup_singleton.
  - intros [Hk Hnd]%NoDup_cons. destruct (decide (c = k)) as [->|Hne]; simpl.
    + by apply NoDup_cons.
    + apply NoDup_cons. split; [|by apply IH].
      intros [kv [Hkv Hin]]%list_elem_of_fmap.
      destruct (jm_set_elem_of _ _ _ _ Hin) as [->|Hin']; [done|].
      apply Hk, list_elem_of_fmap. by exists kv.
Qed.

Lemma jm_set_fresh_ws c cl m :
  NoDup ((λ kv, ws kv.2) <$> m) →
  (∀ kv, kv ∈ m → ws kv.2 ≠ ws cl) →
  NoDup ((λ kv, ws kv.2) <$> jm_set c cl m).
Proof.
  induction m as [|[k v] m IH]; simpl.
  - intros _ _. apply NoDup_singleton.
  - intros [Hk Hnd]%NoDup_cons Hfresh.
    destruct (decide (c = k)) as [->|Hne]; simpl.
    + apply NoDup_cons. split; [|done].
      intros [kv [Hkv Hin]]%list_elem_of_fmap.
      eapply Hfresh; [by apply list_elem_of_further|done].
    + apply NoDup_cons. split.
      * intros [kv [Hkv Hin]]%list_elem_of_fmap.
        destruct (jm_set_elem_of _ _ _ _ Hin) as [->|Hin'].
        -- simpl in Hkv. eapply (Hfresh (k, v)); [apply list_elem_of_here|done].
        -- apply Hk, list_elem_of_fmap. by exists kv.
      * apply IH; [done|]. intros kv Hin. apply Hfresh. by apply list_elem_of_further.
Qed.

Lemma registry_wf_ext st st' :
  clients st' = clients st → length (sockets st') = length (sockets st) →
  registry_wf st → registry_wf st'.
Proof. unfold registry_wf. by intros -> ->. Qed.

Lemma registry_wf_update st st' c cl cl0 :
  jm_get c (clients st) = Some cl0 → ws cl = ws cl0 →
  clients st' = jm_set c cl (clients st) →
  length (sockets st') = length (sockets st) →
  registry_wf st → registry_wf st'.
Proof.
  intros Hget Hws Hcl Hlen (Hkeys & Hwss & Hbound). unfold registry_wf.
  rewrite Hcl, Hlen, (jm_set_present_keys _ _ _ _ Hget),
    (jm_set_present_ws _ _ _ _ Hget Hws).
  split_and!; [done..|].
  intros kv [->|Hin]%jm_set_elem_of; [|by apply Hbound].
  simpl. rewrite Hws.
  apply (Hbound (c, cl0)). by apply jm_get_Some_elem_of.
Qed.

Lemma registry_wf_delete st st' c :
  clients st' = jm_delete c (clients st) →
  length (sockets st') = length (sockets st) →
  registry_wf st → registry_wf st'.
Proof.
  intros Hcl Hlen (Hkeys & Hwss & Hbound). unfold registry_wf, jm_keys.
  rewrite Hcl, Hlen. pose proof (jm_delete_sublist c (clients st)) as Hsub.
  split_and!.
  - eapply sublist_NoDup; [exact Hkeys|]. by apply fmap_sublist.
  - eapply sublist_NoDup; [exact Hwss|]. by apply fmap_sublist.
  - intros kv Hin. apply Hbound. by eapply elem_of_sublist.
Qed.

Lemma registry_wf_connect now st c : registry_wf st → registry_wf (onConnection now st c).
Proof.
  intros (Hkeys & Hwss & Hbound). unfold registry_wf, onConnection. simpl.
  split_and!.
  - by apply jm_set_keys_NoDup.
  - apply jm_set_fresh_ws; [done|]. intros kv Hin. simpl.
    specialize (Hbound kv Hin). lia.
  - intros kv [->|Hin]%jm_set_elem_of; rewrite length_app; simpl; [lia|].
    specialize (Hbound kv Hin). lia.
Qed.
End registry_lemmas.

Lemma setReadyState_length rs w st :
  length (sockets (setReadyState rs w st)) = length (sockets st).
Proof. unfold setReadyState. case_match; [simpl; apply length_insert|done]. Qed.

Lemma terminate_length st w : length (sockets (terminate st w)) = length (sockets st).
Proof. unfold terminate. case_match; [simpl; apply length_insert|done]. Qed.

Lemma terminate_clients st w : clients (terminate st w) = clients st.
Proof. unfold terminate. by case_match. Qed.

Lemma handleHostReady_registry now st c s :
  registry_wf st → registry_wf (handleHostReady now st c s).1.
Proof.
  unfold handleHostReady. destruct (jm_get c (clients st)) as [client|] eqn:Hc; [|done].
  apply registry_wf_update with (c := c) (cl0 := client)
    (cl := mkClient (ws client) (Some s) (Some host) (connectedAt client)
             (lastPong client) (viewerId client));
    [done|done| |]; by case_match.
Qed.

Lemma handleViewerJoin_registry st c s uid r :
  handleViewerJoin st c s uid = Some r → registry_wf st → registry_wf r.1.
Proof.
  unfold handleViewerJoin. destruct (jm_get c (clients st)) as [client|] eqn:Hc; [|done].
  destruct (sessions st !! s) as [session|]; intros [= <-]; [|done].
  by apply registry_wf_update with (c := c) (cl0 := client)
    (cl := mkClient (ws client) (Some s) (Some viewer) (connectedAt client)
             (lastPong client) (Some uid)).
Qed.

Lemma handleStats_registry st c s d r :
  handleStats st c s d = Some r → registry_wf st → registry_wf r.1.
Proof.
  unfold handleStats. repeat case_match; intros [= <-]; [|done].
  by apply registry_wf_ext.
Qed.

Lemma handleMessage_registry now st c msg r :
  handleMessage now st c msg = Some r → registry_wf st → registry_wf r.1.
Proof.
  unfold handleMessage. destruct (jm_get c (clients st)); [|by intros [= <-]].
  destruct msg; try (intros [= <-]).
  - apply handleHostReady_registry.
  - apply handleViewerJoin_registry.
  - by rewrite handleOffer_state.
  - by rewrite handleAnswer_state.
  - by rewrite handleIceCandidate_state.
  - by rewrite handleCursor_state.
  - apply handleStats_registry.
  - done.
  - done.
Qed.

Lemma disconnectSession_registry st client :
  clients (disconnectSession st client).1 = clients st
  ∧ sockets (disconnectSession st client).1 = sockets st.
Proof. unfold disconnectSession. by repeat case_match. Qed.

Lemma handleDisconnection_registry st c :
  registry_wf st → registry_wf (handleDisconnection st c).1.
Proof.
  intros Hwf. unfold handleDisconnection.
  destruct (jm_get c (clients st)) as [client|].
  - pose proof (disconnectSession_registry st client) as [Hcl Hso].
    destruct (disconnectSession st client) as [st1 acts]. simpl in *.
    apply (registry_wf_delete st _ c); simpl; [by rewrite Hcl|by rewrite Hso|done].
  - by apply (registry_wf_delete st _ c).
Qed.

Lemma healthCheckVisit_registry now acc entry :
  registry_wf acc.1 → registry_wf (healthCheckVisit now acc entry).1.
Proof.
  destruct acc as [st acts], entry as [c client]. unfold healthCheckVisit. simpl.
  intros Hwf. repeat case_match; simpl; [|done|by apply (registry_wf_delete st _ c)].
  eapply registry_wf_ext; [apply terminate_clients|apply terminate_length|done].
Qed.

Lemma healthCheck_fold_registry now l acc :
  registry_wf acc.1 → registry_wf (foldl (healthCheckVisit now) acc l).1.
Proof.
  revert acc. induction l as [|e l IH]; intros acc Hwf; [done|].
  simpl. by apply IH, healthCheckVisit_registry.
Qed.

Lemma onPong_registry now st c : registry_wf st → registry_wf (onPong now st c).
Proof.
  unfold onPong. destruct (jm_get c (clients st)) as [client|] eqn:Hc; [|done].
  by apply registry_wf_update with (c := c) (cl0 := client)
    (cl := mkClient (ws client) (sessionId client) (type client)
             (connectedAt client) now (viewerId client)).
Qed.

Lemma step_registry now st ev : registry_wf st → registry_wf (step now st ev).1.
Proof.
  intros Hwf. destruct ev as [c|w data|w|w|w|w|]; simpl.
  - by apply registry_wf_connect.
  - destruct (sockets st !! w) as [sock|]; [|done]. case_bool_decide; [done|].
    unfold onMessage. destruct data as [msg|]; [|done].
    destruct (handleMessage now st (boundClientId sock) msg) as [r|] eqn:Hr; [|done].
    by eapply handleMessage_registry.
  - case_match; [|done].
    eapply registry_wf_ext;
      [apply setReadyState_clients|apply setReadyState_length|done].
  - destruct (sockets st !! w) as [sock|]; [|done]. case_bool_decide; [done|].
    apply handleDisconnection_registry.
    eapply registry_wf_ext;
      [apply setReadyState_clients|apply setReadyState_length|done].
  - done.
  - destruct (sockets st !! w) as [sock|]; [|done]. case_bool_decide; [done|].
    by apply onPong_registry.
  - by apply healthCheck_fold_registry.
Qed.

Lemma reachable_registry_wf st : reachable st → registry_wf st.
Proof.
  induction 1 as [now|st now ev _ IH]; [|by apply step_registry].
  unfold registry_wf. simpl. split_and!; [apply NoDup_nil_2..|].
  intros kv Hin. by apply elem_of_nil in Hin.
Qed.

Lemma run_reachable st evs : reachable st → reachable (run st evs).1.
Proof.
  revert st. induction evs as [|[now ev] evs IH]; intros st Hst; [done|].
  simpl. pose proof (reach_step st now ev Hst) as Hstep.
  destruct (step now st ev) as [st1 a1]. specialize (IH st1 Hstep).
  by destruct (run st1 evs) as [st2 a2].
Qed.

(** The transport of a registered client is found again as that client's. *)
Lemma getViewerClientId_owner st c client :
  registry_wf st → jm_get c (clients st) = Some client →
  getViewerClientId st (ws client) = Some c.
Proof.
  intros (_ & Hwss & _) Hget%jm_get_Some_elem_of. unfold getViewerClientId.
  induction (clients st) as [|[k v] m IH]; [by apply elem_of_nil in Hget|].
  simpl in *. apply NoDup_cons in Hwss as [Hk Hnd].
  destruct (decide (ws v = ws client)) as [Heq|Hne]; simpl.
  - apply elem_of_cons in Hget as [[= -> ->]|Hin]; [done|].
    destruct Hk. rewrite Heq. apply list_elem_of_fmap. by exists (c, client).
  - apply elem_of_cons in Hget as [[= -> ->]|Hin]; [done|].
    specialize (IH Hnd Hin).
    destruct (list_find _ m) as [[i x]|]; simpl in *; [done|done].
Qed.

Lemma sendToOwner_registered st c client msg :
  registry_wf st → jm_get c (clients st) = Some client →
  sendToOwner st (ws client) msg
  = if isOpen st (ws client) then [Send (ws client) msg] else [].
Proof.
  intros Hwf Hget. unfold sendToOwner, sendToClient.
  by rewrite (getViewerClientId_owner _ _ _ Hwf Hget), Hget.
Qed.

(** ** Scenario states are reachable *)

Lemma joined_reachable : reachable joined.
Proof. apply run_reachable, reach_initial. Qed.

Lemma one_viewer_reachable : reachable one_viewer.
Proof. apply run_reachable, reach_initial. Qed.

Lemma reconnected_reachable : reachable reconnected.
Proof. apply run_reachable, reach_initial. Qed.

(** ** Router: dispatch of a registered sender *)

Lemma handleMessage_registered now st c client msg :
  jm_get c (clients st) = Some client →
  handleMessage now st c msg
  = match msg with
    | FHostReady s => Some (handleHostReady now st c s)
    | FViewerJoin s uid => handleViewerJoin st c s uid
    | FOffer s d target => Some (handleOffer st c s d target)
    | FAnswer s d => Some (handleAnswer st c s d)
    | FIceCandidate s d target => Some (handleIceCandidate st c s d target)
    | FCursor uid pos => Some (handleCursor st c uid pos)
    | FStats s d => handleStats st c s d
    | FPing => Some (st, sendToClient st c OPong)
    | FOther _ => Some (st, [])
    end.
Proof. intros Hc. unfold handleMessage. by rewrite Hc. Qed.

(** ** Peak-viewer counter (C10) *)

(** C10. In every state the server can reach, each session's peak-viewer
    counter is at least the size of its viewer map; and whatever event
    comes next, a session that is still in the table afterwards has a peak
    counter no smaller than before. *)
Theorem peak_viewers_invariant st :
  reachable st →
  peak_covers_viewers st
  ∧ ∀ now ev s session session',
      sessions st !! s = Some session →
      sessions (step now st ev).1 !! s = Some session' →
      peakViewers (stats session) ≤ peakViewers (stats session').
Proof.
  intros Hst. split; [by apply reachable_peak_covers|].
  intros now ev s session session'.
  apply sessions_step_peak_mono, step_sessions.
Qed.

Lemma peak_viewers_invariant_witness :
  reachable joined
  ∧ peak_covers_viewers joined
  ∧ ∀ now ev s session session',
      sessions joined !! s = Some session →
      sessions (step now joined ev).1 !! s = Some session' →
      peakViewers (stats session) ≤ peakViewers (stats session').
Proof.
  split; [exact joined_reachable|].
  exact (peak_viewers_invariant joined joined_reachable).
Defined.

(** ** Host re-registration (C7) *)

(** C7. A host-ready for an identifier whose session is live creates no
    second record: the table keeps its keys and its size, the session count
    is not incremented, the record of that session gets the sender as host
    (client id and transport), and its viewer map, creation time and
    counters are the ones it had. The sender is acknowledged. *)
Theorem host_ready_live_session now st c client s session :
  jm_get c (clients st) = Some client →
  sessions st !! s = Some session →
  ∃ st',
    handleMessage now st c (FHostReady s)
    = Some (st', sendToClient st' c (OHostReadyAck s))
    ∧ sessions st'
      = <[s := mkSession c (ws client) (viewers session) (createdAt session)
                (stats session)]> (sessions st)
    ∧ dom (sessions st') = dom (sessions st)
    ∧ size (sessions st') = size (sessions st)
    ∧ activeSessions (serverStats st') = activeSessions (serverStats st).
Proof.
  intros Hc Hs. rewrite (handleMessage_registered _ _ _ _ _ Hc).
  unfold handleHostReady. rewrite Hc, Hs. eexists. split; [reflexivity|].
  simpl. split_and!; [done| | |done].
  - apply dom_insert_lookup_L. by eexists.
  - rewrite <-(insert_id (sessions st) s session Hs) at 2.
    rewrite <-(insert_delete_eq (sessions st)). rewrite <-(insert_delete_eq (sessions st) s session).
    rewrite !map_size_insert_None; [done|apply lookup_delete_eq..].
Qed.

Lemma host_ready_live_session_witness :
  jm_get "client_x" (clients one_viewer)
  = Some (mkClient 2 None None 2 2 None)
  ∧ sessions one_viewer !! "abc"
    = Some (mkSession "client_h" 0 [("v1", 1)] 3 (mkSessionStats 1 1 0))
  ∧ ∃ st',
      handleMessage 9 one_viewer "client_x" (FHostReady "abc")
      = Some (st', sendToClient st' "client_x" (OHostReadyAck "abc"))
      ∧ sessions st'
        = <["abc" := mkSession "client_x" 2 [("v1", 1)] 3 (mkSessionStats 1 1 0)]>
            (sessions one_viewer)
      ∧ dom (sessions st') = dom (sessions one_viewer)
      ∧ size (sessions st') = size (sessions one_viewer)
      ∧ activeSessions (serverStats st') = activeSessions (serverStats one_viewer).
Proof.
  assert (H1 : jm_get "client_x" (clients one_viewer)
               = Some (mkClient 2 None None 2 2 None)) by reflexivity.
  assert (H2 : sessions one_viewer !! "abc"
               = Some (mkSession "client_h" 0 [("v1", 1)] 3 (mkSessionStats 1 1 0)))
    by (vm_compute; reflexivity).
  split; [exact H1|]. split; [exact H2|].
  exact (host_ready_live_session 9 one_viewer "client_x" _ "abc" _ H1 H2).
Defined.

(** ** Joining an unknown session (C5) *)

Lemma handleViewerJoin_unknown st c client s uid :
  jm_get c (clients st) = Some client →
  sessions st !! s = None →
  handleViewerJoin st c s uid
  = Some (st, sendError st (ws client) "Session not found or client invalid").
Proof. intros Hc Hs. unfold handleViewerJoin. by rewrite Hc, Hs. Qed.

(** C5, as the code has it. A viewer-join from a registered connection with
    an open transport, naming an identifier that is not in the session
    table, changes nothing in the server (no session is created, the
    sender's record keeps its role, the sender stays registered) and sends
    the sender one frame, the error whose message is
    "Session not found or client invalid". *)
Theorem join_unknown_session now st c client s uid :
  jm_get c (clients st) = Some client →
  isOpen st (ws client) = true →
  sessions st !! s = None →
  handleMessage now st c (FViewerJoin s uid)
  = Some (st, [Send (ws client) (OError "Session not found or client invalid")]).
Proof.
  intros Hc Hopen Hs. rewrite (handleMessage_registered _ _ _ _ _ Hc).
  rewrite (handleViewerJoin_unknown _ _ _ _ _ Hc Hs). unfold sendError.
  by rewrite Hopen.
Qed.

Lemma join_unknown_session_witness :
  jm_get "client_x" (clients one_viewer) = Some (mkClient 2 None None 2 2 None)
  ∧ isOpen one_viewer 2 = true
  ∧ sessions one_viewer !! "zzz" = None
  ∧ handleMessage 9 one_viewer "client_x" (FViewerJoin "zzz" "v2")
    = Some (one_viewer,
            [Send 2 (OError "Session not found or client invalid")]).
Proof.
  assert (H1 : jm_get "client_x" (clients one_viewer)
               = Some (mkClient 2 None None 2 2 None)) by reflexivity.
  assert (H2 : isOpen one_viewer 2 = true) by reflexivity.
  assert (H3 : sessions one_viewer !! "zzz" = None) by (vm_compute; reflexivity).
  split_and!; [exact H1|exact H2|exact H3|].
  exact (join_unknown_session 9 one_viewer "client_x" _ "zzz" "v2" H1 H2 H3).
Defined.

(** C5 as stated fails: in scenario C the reply is not the frame
    [{t:"error", message:"Session not found"}]. *)
Lemma join_unknown_session_reply_differs :
  sessions one_viewer !! "zzz" = None
  ∧ handleMessage 9 one_viewer "client_x" (FViewerJoin "zzz" "v2")
    ≠ Some (one_viewer, [Send 2 (OError "Session not found")]).
Proof.
  assert (Hs : sessions one_viewer !! "zzz" = None) by (vm_compute; reflexivity).
  split; [exact Hs|].
  rewrite (handleMessage_registered 9 one_viewer "client_x"
             (mkClient 2 None None 2 2 None)) by reflexivity.
  rewrite (handleViewerJoin_unknown one_viewer "client_x"
             (mkClient 2 None None 2 2 None)) by (reflexivity || exact Hs).
  intros Heq. discriminate Heq.
Qed.

(** ** Joining under a viewer id that is taken (C4) *)




(** ** Stats frames (C8) *)




(** ** Offers (C1) *)

(** A successful viewer-join leaves the joining connection recorded as
    viewer [uid] of session [s], and the viewer map of [s] holding its
    transport under [uid]. *)
Lemma viewer_join_registers st c client s session uid :
  jm_get c (clients st) = Some client →
  sessions st !! s = Some session →
  ∃ r client' session',
    handleViewerJoin st c s uid = Some r
    ∧ jm_get c (clients r.1) = Some client'
    ∧ ws client' = ws client
    ∧ sessionId client' = Some s ∧ viewerId client' = Some uid
    ∧ type client' = Some viewer
    ∧ sessions r.1 !! s = Some session'
    ∧ jm_get uid (viewers session') = Some (ws client').
Proof.
  intros Hc Hs. unfold handleViewerJoin. rewrite Hc, Hs.
  eexists _, _, _. split; [reflexivity|]. simpl.
  rewrite jm_get_set_eq, lookup_insert_eq.
  split_and!; try reflexivity. simpl. apply jm_get_set_eq.
Qed.

(** C1, as the code has it. In a state with a well-formed registry, let
    [h] be the registered host of session [s] and let the viewer map of [s]
    hold, under [V], the transport of the registered connection [c] (which
    is what a viewer-join of [c] as [V] leaves, see
    [viewer_join_registers]), that transport being open. An offer from [h]
    naming [V] sends exactly one frame: the offer, with the session
    identifier, the payload [d] as the JSON value received and [hostId] set
    to [h], on the transport of [c]. The server state is unchanged, and no
    registered connection other than [c] is sent anything. The receiver is
    the connection of the viewer-map entry, whatever its own record says. *)
Theorem offer_reaches_target_only now st h hostClient s session V c client d :
  registry_wf st →
  jm_get h (clients st) = Some hostClient →
  sessions st !! s = Some session →
  hostClientId session = h →
  jm_get V (viewers session) = Some (ws client) →
  jm_get c (clients st) = Some client →
  isOpen st (ws client) = true →
  handleMessage now st h (FOffer s d V)
  = Some (st, [Send (ws client) (OOffer s d h)])
  ∧ ∀ c' client' f,
      jm_get c' (clients st) = Some client' →
      Send (ws client') f ∈ [Send (ws client) (OOffer s d h)] →
      c' = c ∧ f = OOffer s d h.
Proof.
  intros Hwf Hh Hs Hhost HV Hc Hopen. split.
  - rewrite (handleMessage_registered _ _ _ _ _ Hh).
    unfold handleOffer. rewrite Hs, decide_True, HV by done.
    by rewrite (sendToOwner_registered _ _ _ _ Hwf Hc), Hopen.
  - intros c' client' f Hc' [= Hw ->]%list_elem_of_singleton. split; [|done].
    pose proof (getViewerClientId_owner _ _ _ Hwf Hc') as Ho'.
    pose proof (getViewerClientId_owner _ _ _ Hwf Hc) as Ho.
    rewrite Hw in Ho'. congruence.
Qed.

Lemma offer_reaches_target_only_witness :
  registry_wf joined
  ∧ jm_get "client_h" (clients joined)
    = Some (mkClient 0 (Some "abc") (Some host) 0 0 None)
  ∧ sessions joined !! "abc"
    = Some (mkSession "client_h" 0 [("v1", 1); ("v2", 2)] 3 (mkSessionStats 2 2 0))
  ∧ jm_get "v1" [("v1", 1); ("v2", 2)] = Some 1
  ∧ jm_get "client_v1" (clients joined)
    = Some (mkClient 1 (Some "abc") (Some viewer) 1 1 (Some "v1"))
  ∧ isOpen joined 1 = true
  ∧ handleMessage 9 joined "client_h" (FOffer "abc" (JStr "sdp") "v1")
    = Some (joined, [Send 1 (OOffer "abc" (JStr "sdp") "client_h")])
  ∧ ∀ c' client' f,
      jm_get c' (clients joined) = Some client' →
      Send (ws client') f ∈ [Send 1 (OOffer "abc" (JStr "sdp") "client_h")] →
      c' = "client_v1" ∧ f = OOffer "abc" (JStr "sdp") "client_h".
Proof.
  assert (H0 : registry_wf joined) by exact (reachable_registry_wf _ joined_reachable).
  assert (H1 : jm_get "client_h" (clients joined)
               = Some (mkClient 0 (Some "abc") (Some host) 0 0 None)) by reflexivity.
  assert (H2 : sessions joined !! "abc"
               = Some (mkSession "client_h" 0 [("v1", 1); ("v2", 2)] 3
                         (mkSessionStats 2 2 0))) by (vm_compute; reflexivity).
  assert (H3 : jm_get "v1" [("v1", 1); ("v2", 2)] = Some 1) by reflexivity.
  assert (H4 : jm_get "client_v1" (clients joined)
               = Some (mkClient 1 (Some "abc") (Some viewer) 1 1 (Some "v1")))
    by reflexivity.
  assert (H5 : isOpen joined 1 = true) by reflexivity.
  split_and!; [exact H0|exact H1|exact H2|exact H3|exact H4|exact H5|..];
    apply (offer_reaches_target_only 9 joined "client_h" _ "abc" _ "v1"
             "client_v1" (mkClient 1 (Some "abc") (Some viewer) 1 1 (Some "v1"))
             (JStr "sdp") H0 H1 H2 eq_refl H3 H4 H5).
Defined.

(** C1 as stated fails: the receiver of an offer is the connection of the
    viewer-map entry, not the connection whose record reads (session,
    viewer id). After "client_v1" has joined "abc" as "v1" and then "xyz"
    as "v9", the viewer map of "abc" still holds its transport under "v1";
    no registered connection has the record ("abc", "v1"), and the offer of
    the host of "abc" for "v1" is sent to the connection whose record reads
    ("xyz", "v9"). *)
Lemma offer_receiver_record_differs :
  hostClientId <$> sessions rejoined !! "abc" = Some "client_h"
  ∧ viewers <$> sessions rejoined !! "abc" = Some [("v1", 1)]
  ∧ (λ kv, (kv.1, ws kv.2, sessionId kv.2, viewerId kv.2)) <$> clients rejoined
    = [("client_h", 0, Some "abc", None);
       ("client_v1", 1, Some "xyz", Some "v9");
       ("client_x", 2, Some "xyz", None)]
  ∧ handleMessage 9 rejoined "client_h" (FOffer "abc" (JStr "sdp") "v1")
    = Some (rejoined, [Send 1 (OOffer "abc" (JStr "sdp") "client_h")]).
Proof. split_and!; vm_compute; reflexivity. Qed.

(** ** Host departure (C6) *)

Lemma registry_ws_inj st c c' client client' :
  registry_wf st →
  jm_get c (clients st) = Some client → jm_get c' (clients st) = Some client' →
  ws client = ws client' → c = c'.
Proof.
  intros Hwf Hc Hc' Hw.
  pose proof (getViewerClientId_owner _ _ _ Hwf Hc) as Ho.
  pose proof (getViewerClientId_owner _ _ _ Hwf Hc') as Ho'.
  rewrite Hw in Ho. congruence.
Qed.

Lemma isOpen_setReadyState_ne rs w w' st :
  w' ≠ w → isOpen (setReadyState rs w st) w' = isOpen st w'.
Proof.
  intros Hne. unfold isOpen, setReadyState.
  destruct (sockets st !! w) as [sock|]; [|done]. simpl.
  by rewrite list_lookup_insert_ne.
Qed.

Lemma truthy_nonempty s : s ≠ "" → truthy s = true.
Proof. intros Hs. unfold truthy. by apply negb_true_iff, String.eqb_neq. Qed.

Lemma elem_of_flat_map {A B} (f : A → list B) (l : list A) x y :
  x ∈ l → y ∈ f x → y ∈ flat_map f l.
Proof.
  rewrite !list_elem_of_In. intros Hx Hy. apply in_flat_map. by exists x.
Qed.





(** ** Heartbeat (C9) *)

Lemma flat_map_ext_elem_of {A B} (f g : A → list B) (l : list A) :
  (∀ x, x ∈ l → f x = g x) → flat_map f l = flat_map g l.
Proof.
  induction l as [|x l IH]; intros Hfg; [done|]. simpl.
  rewrite (Hfg x) by apply list_elem_of_here.
  rewrite IH; [done|]. intros y Hy. apply Hfg. by apply list_elem_of_further.
Qed.

Lemma isOpen_sockets st st' w :
  sockets st' !! w = sockets st !! w → isOpen st' w = isOpen st w.
Proof. unfold isOpen. by intros ->. Qed.

Lemma healthCheckAction_sockets now st st' entry :
  sockets st' !! ws entry.2 = sockets st !! ws entry.2 →
  healthCheckAction now st' entry = healthCheckAction now st entry.
Proof. intros Hs. unfold healthCheckAction. by rewrite (isOpen_sockets _ _ _ Hs). Qed.

Lemma terminate_lookup_ne st w w' :
  w' ≠ w → sockets (terminate st w) !! w' = sockets st !! w'.
Proof.
  intros Hne. unfold terminate. destruct (sockets st !! w); [|done].
  simpl. by rewrite list_lookup_insert_ne.
Qed.

Lemma terminate_lookup_open st w :
  isOpen st w = true →
  ∃ sock, sockets st !! w = Some sock
          ∧ sockets (terminate st w) !! w = Some (mkSocket CLOSING (boundClientId sock)).
Proof.
  unfold isOpen, terminate. destruct (sockets st !! w) as [sock|] eqn:Hw; [|done].
  intros _. exists sock. split; [done|]. simpl.
  apply list_lookup_insert_eq. by eapply lookup_lt_Some.
Qed.

(** One visit: what it appends, and which transports it leaves alone. *)
Lemma healthCheckVisit_spec now st acts entry :
  (healthCheckVisit now (st, acts) entry).2 = acts ++ healthCheckAction now st entry
  ∧ ∀ w, w ≠ ws entry.2 →
      sockets (healthCheckVisit now (st, acts) entry).1 !! w = sockets st !! w.
Proof.
  destruct entry as [c client]. unfold healthCheckVisit, healthCheckAction. simpl.
  destruct (isOpen st (ws client)); [|by rewrite app_nil_r].
  destruct (PONG_TIMEOUT_MS <? now - lastPong client)%Z; simpl; [|done].
  split; [done|]. intros w Hne. by apply terminate_lookup_ne.
Qed.

Lemma healthCheck_fold_spec now l st acts :
  NoDup ((λ kv, ws kv.2) <$> l) →
  (foldl (healthCheckVisit now) (st, acts) l).2
  = acts ++ flat_map (healthCheckAction now st) l
  ∧ ∀ w, w ∉ (λ kv, ws kv.2) <$> l →
      sockets (foldl (healthCheckVisit now) (st, acts) l).1 !! w = sockets st !! w.
Proof.
  revert st acts. induction l as [|e l IH]; intros st acts Hnd.
  - simpl. by rewrite app_nil_r.
  - rewrite fmap_cons in Hnd. apply NoDup_cons in Hnd as [He Hnd].
    destruct (healthCheckVisit_spec now st acts e) as [Hacts Hsock].
    cbn [foldl flat_map].
    destruct (healthCheckVisit now (st, acts) e) as [st1 acts1].
    cbn [fst snd] in Hacts, Hsock.
    destruct (IH st1 acts1 Hnd) as [IHa IHs]. split.
    + rewrite IHa, Hacts, <-app_assoc. f_equal. f_equal.
      apply flat_map_ext_elem_of. intros x Hx.
      apply healthCheckAction_sockets, Hsock.
      intros Heq. apply He. rewrite <-Heq. apply list_elem_of_fmap. by exists x.
    + intros w Hw. rewrite fmap_cons in Hw. apply not_elem_of_cons in Hw as [Hwe Hwl].
      rewrite (IHs w Hwl). by apply Hsock.
Qed.

(** Everything the health check sends, entry by entry. *)
Lemma healthCheck_actions now st :
  registry_wf st →
  (healthCheck now st).2 = flat_map (healthCheckAction now st) (clients st).
Proof.
  intros (_ & Hnd & _). unfold healthCheck.
  by destruct (healthCheck_fold_spec now (clients st) st [] Hnd) as [-> _].
Qed.

(** A transport the sweep terminates is left CLOSING. *)
Lemma healthCheck_terminated now st c client :
  registry_wf st → jm_get c (clients st) = Some client →
  isOpen st (ws client) = true →
  (PONG_TIMEOUT_MS < now - lastPong client)%Z →
  ∃ sock, sockets st !! ws client = Some sock
          ∧ sockets (healthCheck now st).1 !! ws client
            = Some (mkSocket CLOSING (boundClientId sock)).
Proof.
  intros (_ & Hnd & _) Hc%jm_get_Some_elem_of Hopen Hlate. unfold healthCheck.
  apply list_elem_of_split in Hc as (l1 & l2 & Hl). rewrite Hl in *.
  rewrite fmap_app, fmap_cons in Hnd. simpl in Hnd.
  apply NoDup_app in Hnd as (Hnd1 & Hdisj & [Hc2 Hnd2]%NoDup_cons).
  rewrite foldl_app. simpl.
  destruct (healthCheck_fold_spec now l1 st [] Hnd1) as [_ Hs1].
  destruct (foldl (healthCheckVisit now) (st, []) l1) as [st1 acts1]. simpl in Hs1.
  assert (H1 : sockets st1 !! ws client = sockets st !! ws client).
  { apply Hs1. intros Hin. apply (Hdisj _ Hin). apply list_elem_of_here. }
  assert (Hopen1 : isOpen st1 (ws client) = true).
  { by rewrite (isOpen_sockets _ _ _ H1). }
  unfold healthCheckVisit at 2. rewrite Hopen1.
  apply Z.ltb_lt in Hlate. rewrite Hlate.
  destruct (healthCheck_fold_spec now l2 (terminate st1 (ws client))
              (acts1 ++ [Terminate (ws client)]) Hnd2) as [_ Hs2].
  rewrite (Hs2 _ Hc2).
  destruct (terminate_lookup_open _ _ Hopen1) as (sock & Hsock & Hterm).
  exists sock. split; [by rewrite <-H1|done].
Qed.

Lemma healthCheck_entry_of_ws st c client entry :
  registry_wf st → jm_get c (clients st) = Some client →
  entry ∈ clients st → ws entry.2 = ws client → entry = (c, client).
Proof.
  intros Hwf Hc Hin Hw. destruct entry as [c' client']. simpl in Hw.
  assert (Hc' : jm_get c' (clients st) = Some client').
  { apply jm_elem_of_get; [apply Hwf|done]. }
  assert (c' = c) as ->. { by eapply registry_ws_inj. }
  congruence.
Qed.

(** C9. The health check fires every [PING_INTERVAL_MS] = 30 s and the
    timeout window is [PONG_TIMEOUT_MS] = 60 s. For a registered connection
    whose transport is open when the check fires at time [now]:
    - if its last acknowledgment is more than 60 s old, its transport is
      terminated and not probed; the transport is left CLOSING, and its
      close event, when delivered, runs [handleDisconnection], the cleanup
      of every close;
    - otherwise it is sent a probe and is not terminated.
    An acknowledgment (pong) on a registered connection sets its [lastPong]
    to the time it arrives and changes no other field. *)
Theorem heartbeat_sweep now st c client :
  registry_wf st →
  jm_get c (clients st) = Some client →
  isOpen st (ws client) = true →
  ((PONG_TIMEOUT_MS < now - lastPong client)%Z →
     Terminate (ws client) ∈ (healthCheck now st).2
     ∧ (Ping (ws client) ∉ (healthCheck now st).2)
     ∧ ∃ sock,
         sockets (healthCheck now st).1 !! ws client = Some sock
         ∧ readyState sock = CLOSING
         ∧ ∀ now',
             step now' (healthCheck now st).1 (EvClose (ws client))
             = handleDisconnection
                 (setReadyState CLOSED (ws client) (healthCheck now st).1)
                 (boundClientId sock))
  ∧ ((now - lastPong client ≤ PONG_TIMEOUT_MS)%Z →
     Ping (ws client) ∈ (healthCheck now st).2
     ∧ Terminate (ws client) ∉ (healthCheck now st).2)
  ∧ (∀ now',
       jm_get c (clients (onPong now' st c))
       = Some (mkClient (ws client) (sessionId client) (type client)
                 (connectedAt client) now' (viewerId client)))
  ∧ PING_INTERVAL_MS = (30 * 1000)%Z ∧ PONG_TIMEOUT_MS = (60 * 1000)%Z.
Proof.
  intros Hwf Hc Hopen. rewrite (healthCheck_actions _ _ Hwf).
  assert (Hmine : ∀ a, a ∈ flat_map (healthCheckAction now st) (clients st) →
            (a = Ping (ws client) ∨ a = Terminate (ws client)) →
            a ∈ healthCheckAction now st (c, client)).
  { intros a Ha Hshape. apply list_elem_of_In, in_flat_map in Ha as (entry & Hin & Ha).
    apply list_elem_of_In in Hin, Ha.
    assert (ws entry.2 = ws client) as Hw.
    { unfold healthCheckAction in Ha. repeat case_match;
        try (by apply elem_of_nil in Ha);
        apply list_elem_of_singleton in Ha; destruct Hshape; congruence. }
    by rewrite <-(healthCheck_entry_of_ws _ _ _ _ Hwf Hc Hin Hw). }
  assert (Hin : (c, client) ∈ clients st). { by apply jm_get_Some_elem_of. }
  split_and!; [| | |done|done].
  - intros Hlate.
    assert (Hact : healthCheckAction now st (c, client) = [Terminate (ws client)]).
    { unfold healthCheckAction. simpl. rewrite Hopen.
      by apply Z.ltb_lt in Hlate as ->. }
    split_and!.
    + apply (elem_of_flat_map _ _ (c, client)); [done|].
      rewrite Hact. apply list_elem_of_here.
    + intros Hp. apply Hmine in Hp; [|by left]. rewrite Hact in Hp.
      by apply list_elem_of_singleton in Hp.
    + destruct (healthCheck_terminated now st c client Hwf Hc Hopen Hlate)
        as (sock & _ & Hsock).
      eexists. split; [exact Hsock|]. split; [done|].
      intros now'. simpl. by rewrite Hsock.
  - intros Hfresh.
    assert (Hact : healthCheckAction now st (c, client) = [Ping (ws client)]).
    { unfold healthCheckAction. simpl. rewrite Hopen.
      by apply Z.ltb_ge in Hfresh as ->. }
    split.
    + apply (elem_of_flat_map _ _ (c, client)); [done|].
      rewrite Hact. apply list_elem_of_here.
    + intros Hp. apply Hmine in Hp; [|by right]. rewrite Hact in Hp.
      by apply list_elem_of_singleton in Hp.
  - intros now'. unfold onPong. rewrite Hc. simpl. apply jm_get_set_eq.
Qed.

Lemma heartbeat_sweep_witness :
  registry_wf joined
  ∧ jm_get "client_v1" (clients joined)
    = Some (mkClient 1 (Some "abc") (Some viewer) 1 1 (Some "v1"))
  ∧ isOpen joined 1 = true
  ∧ (PONG_TIMEOUT_MS < 70000 - 1)%Z
  ∧ Terminate 1 ∈ (healthCheck 70000 joined).2
  ∧ (Ping 1 ∉ (healthCheck 70000 joined).2)
  ∧ (∃ sock,
       sockets (healthCheck 70000 joined).1 !! 1 = Some sock
       ∧ readyState sock = CLOSING
       ∧ ∀ now',
           step now' (healthCheck 70000 joined).1 (EvClose 1)
           = handleDisconnection
               (setReadyState CLOSED 1 (healthCheck 70000 joined).1)
               (boundClientId sock))
  ∧ ∀ now',
      jm_get "client_v1" (clients (onPong now' joined "client_v1"))
      = Some (mkClient 1 (Some "abc") (Some viewer) 1 now' (Some "v1")).
Proof.
  assert (H0 : registry_wf joined) by exact (reachable_registry_wf _ joined_reachable).
  assert (H1 : jm_get "client_v1" (clients joined)
               = Some (mkClient 1 (Some "abc") (Some viewer) 1 1 (Some "v1")))
    by reflexivity.
  assert (H2 : isOpen joined 1 = true) by reflexivity.
  assert (H3 : (PONG_TIMEOUT_MS < 70000 - 1)%Z) by reflexivity.
  destruct (heartbeat_sweep 70000 joined "client_v1" _ H0 H1 H2)
    as (Hlate & _ & Hpong & _).
  destruct (Hlate H3) as (Ht & Hp & Hs).
  split_and!; [exact H0|exact H1|exact H2|exact H3|exact Ht|exact Hp|exact Hs
              |exact Hpong].
Defined.

(** ** Cursor fan-out (C2) *)

(** C2, the code at scenario F. With the host and the viewers "v1" and
    "v2" joined to "abc", all transports open, the cursor frame of "v1" is
    sent on the host's transport only: the recipients are computed from the
    keys of the viewer map, which are viewer ids, and are then looked up as
    client ids, so the transport of "v2" (2) is sent nothing. *)
Theorem cursor_from_viewer_reaches_host_only :
  jm_get "client_v2" (clients joined)
  = Some (mkClient 2 (Some "abc") (Some viewer) 2 2 (Some "v2"))
  ∧ isOpen joined 2 = true
  ∧ cursorRecipients
      (mkSession "client_h" 0 [("v1", 1); ("v2", 2)] 3 (mkSessionStats 2 2 0))
      "client_v1"
    = ["client_h"; "v1"; "v2"]
  ∧ handleMessage 9 joined "client_v1"
      (FCursor (JStr "v1") (JObj [("x", JNum 10); ("y", JNum 20)]))
    = Some (joined,
            [Send 0 (OCursor (JStr "v1") (JObj [("x", JNum 10); ("y", JNum 20)]))]).
Proof. split_and!; vm_compute; reflexivity. Qed.

(** ** Host reconnect (C3) *)

(** C3, the code at a host reconnect. After "client_a" and then "client_b"
    have announced "abc" (so that "client_b" is the host the session names,
    with viewer "v1" retained), the close of the transport of "client_a"
    removes session "abc" and tells "v1" that the host has disconnected,
    although "client_b" is still registered. *)
Theorem host_reconnect_then_old_close :
  hostClientId <$> sessions reconnected !! "abc" = Some "client_b"
  ∧ viewers <$> sessions reconnected !! "abc" = Some [("v1", 2)]
  ∧ sessions (step 9 reconnected (EvClose 0)).1 !! "abc" = None
  ∧ (step 9 reconnected (EvClose 0)).2 = [Send 2 (OHostDisconnected "abc")]
  ∧ jm_get "client_b" (clients (step 9 reconnected (EvClose 0)).1)
    = Some (mkClient 1 (Some "abc") (Some host) 1 1 None).
Proof. split_and!; vm_compute; reflexivity. Qed.

(** * Further properties of the relay *)

(** ** One event, one slot of the session table *)

Lemma handleHostReady_table now st c s : table_step st (handleHostReady now st c s).1.
Proof.
  unfold handleHostReady.
  destruct (jm_get c (clients st)) as [client|]; [|by apply table_same].
  destruct (sessions st !! s) as [session|] eqn:Hs; simpl.
  - eapply (table_updated _ _ s session); [done|apply write_host|done|done].
  - eapply (table_created _ _ s); [done|apply write_created|done|done].
Qed.

Lemma handleViewerJoin_table st c s uid r :
  handleViewerJoin st c s uid = Some r → table_step st r.1.
Proof.
  unfold handleViewerJoin.
  destruct (jm_get c (clients st)) as [client|]; [|done].
  destruct (sessions st !! s) as [session|] eqn:Hs; intros [= <-]; simpl.
  - eapply (table_updated _ _ s session); [done|apply write_joined|done|done].
  - by apply table_same.
Qed.

Lemma handleStats_table st c s d r :
  handleStats st c s d = Some r → table_step st r.1.
Proof.
  unfold handleStats.
  destruct (sessions st !! s) as [session|] eqn:Hs; [destruct d; [done|]|];
    intros [= <-]; simpl.
  - eapply (table_updated _ _ s session); [done|apply write_stats|done|done].
  - by apply table_same.
Qed.

Lemma handleMessage_table now st c msg r :
  handleMessage now st c msg = Some r → table_step st r.1.
Proof.
  unfold handleMessage.
  destruct (jm_get c (clients st)); [|intros [= <-]; by apply table_same].
  destruct msg; try (intros [= <-]).
  - apply handleHostReady_table.
  - apply handleViewerJoin_table.
  - rewrite handleOffer_state. by apply table_same.
  - rewrite handleAnswer_state. by apply table_same.
  - rewrite handleIceCandidate_state. by apply table_same.
  - rewrite handleCursor_state. by apply table_same.
  - apply handleStats_table.
  - by apply table_same.
  - by apply table_same.
Qed.

Lemma disconnectSession_table st client :
  table_step st (disconnectSession st client).1.
Proof.
  unfold disconnectSession, sessionOf.
  destruct (sessionId client) as [sid|]; [|by apply table_same].
  destruct (truthy sid); [|by apply table_same].
  destruct (sessions st !! sid) as [session|] eqn:Hs; [|by apply table_same].
  destruct (type client) as [[]|]; simpl.
  - by eapply (table_removed _ _ sid session).
  - destruct (viewerId client) as [v|].
    + eapply (table_updated _ _ sid session); [done|apply write_left|done|done].
    + eapply (table_updated _ _ sid session); [done| |done|done].
      apply (write_host session (hostClientId session) (hostWs session)).
  - by apply table_same.
Qed.

Lemma table_step_ext st0 st st1 st' :
  sessions st0 = sessions st → serverStats st0 = serverStats st →
  sessions st' = sessions st1 → serverStats st' = serverStats st1 →
  table_step st0 st1 → table_step st st'.
Proof.
  intros Hs Ha Hs' Ha' [H1 H2|s session H1 H2 H3|s new H1 H2 H3 H4|s old new H1 H2 H3 H4];
    rewrite ?Hs, ?Ha, <-?Hs', <-?Ha' in *.
  - by apply table_same.
  - by eapply table_removed.
  - by eapply table_created.
  - by eapply table_updated.
Qed.

Lemma healthCheckVisit_serverStats now acc entry :
  serverStats (healthCheckVisit now acc entry).1 = serverStats acc.1.
Proof.
  destruct acc as [st acts], entry as [c client]. unfold healthCheckVisit, terminate.
  repeat case_match; done.
Qed.

Lemma healthCheck_fold_serverStats now l acc :
  serverStats (foldl (healthCheckVisit now) acc l).1 = serverStats acc.1.
Proof.
  revert acc. induction l as [|e l IH]; intros acc; [done|].
  simpl. rewrite IH. apply healthCheckVisit_serverStats.
Qed.

Lemma setReadyState_serverStats rs w st :
  serverStats (setReadyState rs w st) = serverStats st.
Proof. unfold setReadyState. by case_match. Qed.

Lemma step_table now st ev : table_step st (step now st ev).1.
Proof.
  destruct ev as [c|w data|w|w|w|w|]; simpl.
  - by apply table_same.
  - destruct (sockets st !! w) as [sock|]; [|by apply table_same].
    case_bool_decide; [by apply table_same|].
    unfold onMessage. destruct data as [msg|]; [|by apply table_same].
    destruct (handleMessage now st (boundClientId sock) msg) as [r|] eqn:Hr;
      [|by apply table_same].
    by eapply handleMessage_table.
  - case_match; [|by apply table_same].
    apply table_same; [apply setReadyState_sessions|].
    by rewrite setReadyState_serverStats.
  - destruct (sockets st !! w) as [sock|]; [|by apply table_same].
    case_bool_decide; [by apply table_same|].
    unfold handleDisconnection. rewrite setReadyState_clients.
    destruct (jm_get _ _) as [client|].
    + pose proof (disconnectSession_table (setReadyState CLOSED w st) client) as Ht.
      destruct (disconnectSession _ client) as [st1 acts]. simpl in *.
      eapply table_step_ext; [| | | |exact Ht]; try done.
      * by rewrite setReadyState_sessions.
      * by rewrite setReadyState_serverStats.
    + simpl. apply table_same; simpl; [apply setReadyState_sessions|].
      by rewrite setReadyState_serverStats.
  - by apply table_same.
  - destruct (sockets st !! w) as [sock|]; [|by apply table_same].
    case_bool_decide; [by apply table_same|].
    apply table_same; unfold onPong; by case_match.
  - apply table_same; [apply healthCheck_sessions|].
    unfold healthCheck. by rewrite healthCheck_fold_serverStats.
Qed.

(** ** Counters reported by [getStats] *)

Lemma table_step_counted st st' :
  table_step st st' → sessions_counted st → sessions_counted st'.
Proof.
  unfold sessions_counted.
  intros [-> ->|s session Hs -> ->|s new Hs _ -> ->|s old new Hs _ -> ->] Hc;
    [done| | |].
  - rewrite map_size_delete, Hs, Hc.
    assert (0 < size (sessions st)); [|lia].
    destruct (decide (size (sessions st) = 0)) as [H0|]; [|lia].
    apply map_size_empty_inv in H0. rewrite H0 in Hs. by rewrite lookup_empty in Hs.
  - rewrite map_size_insert_None, Hc by done. lia.
  - rewrite map_size_insert_Some, Hc; [done|by eexists].
Qed.

Lemma reachable_sessions_counted st : reachable st → sessions_counted st.
Proof.
  induction 1 as [now|st now ev _ IH].
  - unfold sessions_counted. simpl. by rewrite map_size_empty.
  - eapply table_step_counted; [apply step_table|done].
Qed.

Lemma registry_shrinks_refl st : registry_shrinks st st.
Proof. by split. Qed.

Lemma registry_shrinks_trans st1 st2 st3 :
  registry_shrinks st1 st2 → registry_shrinks st2 st3 → registry_shrinks st1 st3.
Proof. unfold registry_shrinks. intros [? ?] [? ?]. split; [lia|congruence]. Qed.

Lemma handleHostReady_shrinks now st c s :
  registry_shrinks st (handleHostReady now st c s).1.
Proof.
  unfold handleHostReady, registry_shrinks.
  destruct (jm_get c (clients st)) as [client|] eqn:Hc; [|done].
  destruct (sessions st !! s); simpl; by rewrite (jm_size_set_present _ _ _ _ Hc).
Qed.

Lemma handleViewerJoin_shrinks st c s uid r :
  handleViewerJoin st c s uid = Some r → registry_shrinks st r.1.
Proof.
  unfold handleViewerJoin, registry_shrinks.
  destruct (jm_get c (clients st)) as [client|] eqn:Hc; [|done].
  destruct (sessions st !! s); intros [= <-]; simpl; [|done].
  by rewrite (jm_size_set_present _ _ _ _ Hc).
Qed.

Lemma handleMessage_shrinks now st c msg r :
  handleMessage now st c msg = Some r → registry_shrinks st r.1.
Proof.
  unfold handleMessage.
  destruct (jm_get c (clients st)); [|intros [= <-]; apply registry_shrinks_refl].
  destruct msg; try (intros [= <-]).
  - apply handleHostReady_shrinks.
  - apply handleViewerJoin_shrinks.
  - rewrite handleOffer_state. apply registry_shrinks_refl.
  - rewrite handleAnswer_state. apply registry_shrinks_refl.
  - rewrite handleIceCandidate_state. apply registry_shrinks_refl.
  - rewrite handleCursor_state. apply registry_shrinks_refl.
  - unfold handleStats. repeat case_match; by intros [= <-].
  - apply registry_shrinks_refl.
  - apply registry_shrinks_refl.
Qed.

Lemma handleDisconnection_shrinks st c :
  registry_shrinks st (handleDisconnection st c).1.
Proof.
  unfold handleDisconnection, registry_shrinks.
  destruct (jm_get c (clients st)) as [client|].
  - pose proof (disconnectSession_registry st client) as [Hcl _].
    assert (Ht : totalConnections (serverStats (disconnectSession st client).1)
                 = totalConnections (serverStats st)).
    { unfold disconnectSession. by repeat case_match. }
    destruct (disconnectSession st client) as [st1 acts]. simpl in *.
    rewrite Hcl, Ht. split; [apply jm_size_delete_le|done].
  - simpl. split; [apply jm_size_delete_le|done].
Qed.

Lemma healthCheck_fold_shrinks now l acc :
  registry_shrinks acc.1 (foldl (healthCheckVisit now) acc l).1.
Proof.
  revert acc. induction l as [|e l IH]; intros acc; [apply registry_shrinks_refl|].
  simpl. eapply registry_shrinks_trans; [|apply IH].
  destruct acc as [st acts], e as [c client]. unfold healthCheckVisit, registry_shrinks.
  repeat case_match; simpl; rewrite ?terminate_clients; try done.
  - unfold terminate. by case_match.
  - split; [apply jm_size_delete_le|done].
Qed.

Lemma setReadyState_shrinks rs w st : registry_shrinks st (setReadyState rs w st).
Proof.
  unfold registry_shrinks. by rewrite setReadyState_clients, setReadyState_serverStats.
Qed.

Lemma step_registry_counted now st ev :
  registry_counted st → registry_counted (step now st ev).1.
Proof.
  unfold registry_counted. intros Hc.
  assert (Hsh : ∀ st', registry_shrinks st st' →
            jm_size (clients st') ≤ totalConnections (serverStats st')).
  { intros st' [Hle ->]. lia. }
  destruct ev as [c|w data|w|w|w|w|]; simpl.
  - pose proof (jm_size_set_le c (mkClient (length (sockets st)) None None now now None)
                  (clients st)). lia.
  - destruct (sockets st !! w) as [sock|]; [|done]. case_bool_decide; [done|].
    unfold onMessage. destruct data as [msg|]; [|done].
    destruct (handleMessage now st (boundClientId sock) msg) as [r|] eqn:Hr; [|done].
    by eapply Hsh, handleMessage_shrinks.
  - case_match; [|done]. apply Hsh, setReadyState_shrinks.
  - destruct (sockets st !! w) as [sock|]; [|done]. case_bool_decide; [done|].
    eapply Hsh, registry_shrinks_trans;
      [apply (setReadyState_shrinks CLOSED w)|apply handleDisconnection_shrinks].
  - done.
  - destruct (sockets st !! w) as [sock|]; [|done]. case_bool_decide; [done|].
    apply Hsh. unfold onPong, registry_shrinks.
    destruct (jm_get _ _) as [client|] eqn:Hg; [|done]. simpl.
    by rewrite (jm_size_set_present _ _ _ _ Hg).
  - apply Hsh, (healthCheck_fold_shrinks now (clients st) (st, [])).
Qed.

Lemma reachable_registry_counted st : reachable st → registry_counted st.
Proof.
  induction 1 as [now|st now ev _ IH]; [|by apply step_registry_counted].
  unfold registry_counted. simpl. lia.
Qed.

(** X1. In every reachable state the [activeSessions] figure that
    [getStats] reports is the number of sessions in the table, and
    [connectedClients] is at most [totalConnections]. *)
Theorem getStats_counters now memoryUsage st :
  reachable st →
  Report.activeSessions (getStats now memoryUsage st) = Z.of_nat (size (sessions st))
  ∧ Report.connectedClients (getStats now memoryUsage st)
    ≤ Report.totalConnections (getStats now memoryUsage st).
Proof.
  intros Hst. split.
  - by apply reachable_sessions_counted.
  - by apply reachable_registry_counted.
Qed.

Lemma getStats_counters_witness :
  reachable joined
  ∧ Report.activeSessions (getStats 9 JNull joined) = Z.of_nat (size (sessions joined))
  ∧ Report.connectedClients (getStats 9 JNull joined)
    ≤ Report.totalConnections (getStats 9 JNull joined).
Proof.
  split; [exact joined_reachable|].
  exact (getStats_counters 9 JNull joined joined_reachable).
Defined.

(** ** Session records in reachable states *)

Section jsmap_keys.
Context {K V : Type} `{EqDecision K}.
Implicit Types (k : K) (v : V) (m : list (K * V)).

Lemma jm_set_elem_of_gen k v m kv : kv ∈ jm_set k v m → kv = (k, v) ∨ kv ∈ m.
Proof.
  induction m as [|[k' v'] m IH]; simpl.
  - intros ->%list_elem_of_singleton. by left.
  - destruct (decide (k = k')) as [->|Hne].
    + intros [->|Hin]%elem_of_cons; [by left|right; by apply list_elem_of_further].
    + intros [->|Hin]%elem_of_cons; [right; apply list_elem_of_here|].
      destruct (IH Hin); [by left|right; by apply list_elem_of_further].
Qed.

Lemma jm_set_keys_NoDup_gen k v m : NoDup (jm_keys m) → NoDup (jm_keys (jm_set k v m)).
Proof.
  unfold jm_keys. induction m as [|[k' v'] m IH]; simpl.
  - intros _. apply NoDup_singleton.
  - intros [Hk Hnd]%NoDup_cons. destruct (decide (k = k')) as [->|Hne]; simpl.
    + by apply NoDup_cons.
    + apply NoDup_cons. split; [|by apply IH].
      intros [kv [Hkv Hin]]%list_elem_of_fmap.
      destruct (jm_set_elem_of_gen _ _ _ _ Hin) as [->|Hin']; [done|].
      apply Hk, list_elem_of_fmap. by exists kv.
Qed.

Lemma jm_delete_sublist_gen k m : jm_delete k m `sublist_of` m.
Proof.
  induction m as [|[k' v'] m IH]; simpl; [done|].
  destruct (decide (k = k')); [by apply sublist_cons|by apply sublist_skip].
Qed.

Lemma jm_delete_keys_NoDup k m : NoDup (jm_keys m) → NoDup (jm_keys (jm_delete k m)).
Proof.
  unfold jm_keys. intros Hnd. eapply sublist_NoDup; [exact Hnd|].
  apply fmap_sublist, jm_delete_sublist_gen.
Qed.

Lemma jm_delete_absent k m : jm_get k m = None → jm_delete k m = m.
Proof.
  induction m as [|[k' v'] m IH]; simpl; [done|].
  destruct (decide (k = k')); [done|]. intros Hm. by rewrite IH.
Qed.

Lemma jm_get_app_None k m1 m2 :
  jm_get k m1 = None → jm_get k (m1 ++ m2) = jm_get k m2.
Proof.
  induction m1 as [|[k' v'] m1 IH]; simpl; [done|].
  destruct (decide (k = k')); [done|apply IH].
Qed.

Lemma jm_delete_app_absent k m1 m2 :
  jm_get k m1 = None → jm_delete k (m1 ++ m2) = m1 ++ jm_delete k m2.
Proof.
  induction m1 as [|[k' v'] m1 IH]; simpl; [done|].
  destruct (decide (k = k')); [done|]. intros Hm. by rewrite IH.
Qed.
End jsmap_keys.

Lemma session_write_sound old new :
  session_write old new →
  (∀ session, old = Some session → session_sound session) →
  session_sound new.
Proof.
  unfold session_sound.
  intros [c w now|session c w|session uid w|session b|session v] Hold; simpl.
  - split_and!; [apply NoDup_nil_2|unfold jm_size; simpl; lia|lia].
  - by apply Hold.
  - destruct (Hold session eq_refl) as (Hnd & Hsize & Hpeak).
    pose proof (jm_size_set_le uid w (viewers session)).
    split_and!; [by apply jm_set_keys_NoDup_gen|lia|lia].
  - by apply Hold.
  - destruct (Hold session eq_refl) as (Hnd & Hsize & Hpeak).
    pose proof (jm_size_delete_le v (viewers session)).
    split_and!; [by apply jm_delete_keys_NoDup|lia|lia].
Qed.

Lemma table_step_sound st st' :
  table_step st st' →
  (∀ s session, sessions st !! s = Some session → session_sound session) →
  ∀ s session, sessions st' !! s = Some session → session_sound session.
Proof.
  intros [-> _|s0 old Hs0 -> _|s0 new Hs0 Hw -> _|s0 old new Hs0 Hw -> _] Hinv s session Hs.
  - by eapply Hinv.
  - apply lookup_delete_Some in Hs as [_ Hs]. by eapply Hinv.
  - apply lookup_insert_Some in Hs as [[<- <-]|[_ Hs]]; [|by eapply Hinv].
    eapply session_write_sound; [exact Hw|]. by intros session.
  - apply lookup_insert_Some in Hs as [[<- <-]|[_ Hs]]; [|by eapply Hinv].
    eapply session_write_sound; [exact Hw|]. intros session [= <-]. by eapply Hinv.
Qed.

Lemma reachable_sessions_sound st :
  reachable st → ∀ s session, sessions st !! s = Some session → session_sound session.
Proof.
  induction 1 as [now|st now ev _ IH].
  - intros s session Hs. simpl in Hs. by rewrite lookup_empty in Hs.
  - eapply table_step_sound; [apply step_table|exact IH].
Qed.

(** X2. In every reachable state the viewer ids of a session's viewer map
    are pairwise distinct, whatever joins (also under an id already taken)
    and departures have happened. *)
Theorem viewer_ids_distinct st s session :
  reachable st → sessions st !! s = Some session →
  NoDup (jm_keys (viewers session)).
Proof. intros Hst Hs. by destruct (reachable_sessions_sound st Hst s session Hs). Qed.

Lemma viewer_ids_distinct_witness :
  reachable joined
  ∧ sessions joined !! "abc"
    = Some (mkSession "client_h" 0 [("v1", 1); ("v2", 2)] 3 (mkSessionStats 2 2 0))
  ∧ NoDup (jm_keys [("v1", 1); ("v2", 2)]).
Proof.
  assert (H2 : sessions joined !! "abc"
               = Some (mkSession "client_h" 0 [("v1", 1); ("v2", 2)] 3
                         (mkSessionStats 2 2 0))) by (vm_compute; reflexivity).
  split; [exact joined_reachable|]. split; [exact H2|].
  exact (viewer_ids_distinct joined "abc" _ joined_reachable H2).
Defined.

(** X3. In every reachable state a session's peak-viewer counter is at
    most its total-viewers counter: the peak only moves at a join, which
    also counts one more viewer. *)
Theorem peak_at_most_total_joins st s session :
  reachable st → sessions st !! s = Some session →
  peakViewers (stats session) ≤ totalViewers (stats session).
Proof.
  intros Hst Hs. by destruct (reachable_sessions_sound st Hst s session Hs) as (_ & _ & ?).
Qed.

Lemma peak_at_most_total_joins_witness :
  reachable joined
  ∧ sessions joined !! "abc"
    = Some (mkSession "client_h" 0 [("v1", 1); ("v2", 2)] 3 (mkSessionStats 2 2 0))
  ∧ peakViewers (mkSessionStats 2 2 0) ≤ totalViewers (mkSessionStats 2 2 0).
Proof.
  assert (H2 : sessions joined !! "abc"
               = Some (mkSession "client_h" 0 [("v1", 1); ("v2", 2)] 3
                         (mkSessionStats 2 2 0))) by (vm_compute; reflexivity).
  split; [exact joined_reachable|]. split; [exact H2|].
  exact (peak_at_most_total_joins joined "abc" _ joined_reachable H2).
Defined.

(** ** What one event can touch *)

(** X4. Whatever the event, at most one slot of the session table differs
    afterwards: a fault or a departure tied to one session leaves every
    other session's record as it was. *)
Theorem event_touches_one_session now st ev :
  ∃ s, ∀ s', s' ≠ s → sessions (step now st ev).1 !! s' = sessions st !! s'.
Proof.
  destruct (step_table now st ev) as [-> _|s old _ -> _|s new _ _ -> _|s old new _ _ -> _].
  - by exists "".
  - exists s. intros s' Hne. by apply lookup_delete_ne.
  - exists s. intros s' Hne. by apply lookup_insert_ne.
  - exists s. intros s' Hne. by apply lookup_insert_ne.
Qed.

(** X5. Offer, answer, ice-candidate, cursor and ping frames, and frames
    of an unknown type, never change the server state, whoever sends them;
    only host-ready, viewer-join and stats frames can. *)
Theorem relay_frames_keep_state now st c message r :
  relayOnly message = true →
  handleMessage now st c message = Some r →
  r.1 = st.
Proof.
  intros Hrelay. unfold handleMessage.
  destruct (jm_get c (clients st)); [|by intros [= <-]].
  destruct message; try done; intros [= <-];
    auto using handleOffer_state, handleAnswer_state, handleIceCandidate_state,
      handleCursor_state.
Qed.

Lemma relay_frames_keep_state_witness :
  relayOnly (FCursor (JStr "v1") JNull) = true
  ∧ handleMessage 9 joined "client_v1" (FCursor (JStr "v1") JNull)
    = Some (joined, [Send 0 (OCursor (JStr "v1") JNull)])
  ∧ (joined, [Send 0 (OCursor (JStr "v1") JNull)]).1 = joined.
Proof.
  assert (H1 : relayOnly (FCursor (JStr "v1") JNull) = true) by reflexivity.
  assert (H2 : handleMessage 9 joined "client_v1" (FCursor (JStr "v1") JNull)
               = Some (joined, [Send 0 (OCursor (JStr "v1") JNull)]))
    by (vm_compute; reflexivity).
  split; [exact H1|]. split; [exact H2|].
  exact (relay_frames_keep_state 9 joined "client_v1" _ _ H1 H2).
Defined.


(** ** Transports the server writes to *)

Lemma acts_open_sockets st st' acts :
  sockets st' = sockets st → acts_open st' acts → acts_open st acts.
Proof.
  intros Hs Ho. unfold acts_open. eapply Forall_impl; [exact Ho|]. intros a.
  unfold isOpen. by rewrite Hs.
Qed.

Lemma sendToClient_open st c m : acts_open st (sendToClient st c m).
Proof.
  unfold sendToClient, acts_open. destruct (jm_get c (clients st)) as [client|]; [|done].
  destruct (isOpen st (ws client)) eqn:Hopen; [|done]. by apply Forall_singleton.
Qed.

Lemma sendToOwner_open st w m : acts_open st (sendToOwner st w m).
Proof.
  unfold sendToOwner. destruct (getViewerClientId st w); [|by apply Forall_nil].
  apply sendToClient_open.
Qed.

Lemma sendError_open st w m : acts_open st (sendError st w m).
Proof.
  unfold sendError, acts_open. destruct (isOpen st w) eqn:Hopen; [|done].
  by apply Forall_singleton.
Qed.

Lemma acts_open_flat_map {A} st (f : A → list Action) (l : list A) :
  (∀ x, acts_open st (f x)) → acts_open st (flat_map f l).
Proof.
  intros Hf. unfold acts_open. induction l as [|x l IH]; simpl; [done|].
  apply Forall_app. split; [apply Hf|done].
Qed.

Lemma handleMessage_open now st c msg r :
  handleMessage now st c msg = Some r → acts_open st r.2.
Proof.
  unfold handleMessage.
  destruct (jm_get c (clients st)) as [client|] eqn:Hc;
    [|intros [= <-]; by apply Forall_nil].
  destruct msg; try (intros [= <-]).
  - unfold handleHostReady. rewrite Hc. simpl.
    eapply acts_open_sockets; [|apply sendToClient_open]. by case_match.
  - unfold handleViewerJoin. rewrite Hc.
    destruct (sessions st !! s); intros [= <-]; simpl; [|apply sendError_open].
    apply Forall_app. split;
      (eapply acts_open_sockets; [|apply sendToClient_open]; done).
  - unfold handleOffer. repeat case_match; simpl;
      try (by apply Forall_nil); apply sendToOwner_open.
  - unfold handleAnswer. repeat case_match; simpl;
      try (by apply Forall_nil); apply sendToClient_open.
  - unfold handleIceCandidate. repeat case_match; simpl;
      try (by apply Forall_nil); [apply sendToOwner_open|apply sendToClient_open].
  - unfold handleCursor. repeat case_match; simpl; try (by apply Forall_nil).
    apply acts_open_flat_map. intros x. apply sendToClient_open.
  - unfold handleStats. repeat case_match; intros [= <-]; by apply Forall_nil.
  - apply sendToClient_open.
  - by apply Forall_nil.
Qed.

Lemma handleDisconnection_open st c : acts_open st (handleDisconnection st c).2.
Proof.
  unfold handleDisconnection.
  destruct (jm_get c (clients st)) as [client|]; [|by apply Forall_nil].
  assert (Ho : acts_open st (disconnectSession st client).2).
  { unfold disconnectSession. repeat case_match; simpl; try (by apply Forall_nil).
    - apply acts_open_flat_map. intros x. apply sendToOwner_open.
    - eapply acts_open_sockets; [|apply sendToClient_open]. done.
    - eapply acts_open_sockets; [|apply sendToClient_open]. done. }
  by destruct (disconnectSession st client).
Qed.

Lemma isOpen_setReadyState_closed w x st :
  isOpen (setReadyState CLOSED w st) x = true → isOpen st x = true.
Proof.
  destruct (decide (x = w)) as [->|Hne]; [|by rewrite isOpen_setReadyState_ne].
  unfold isOpen, setReadyState. destruct (sockets st !! w) as [sock|] eqn:Hw.
  - simpl. rewrite list_lookup_insert_eq by (by eapply lookup_lt_Some). done.
  - by rewrite Hw.
Qed.

(** X7. In a state with a well-formed registry, every operation an event
    makes the server perform (a frame sent, a probe, a termination) is on a
    transport that was open when the event arrived; nothing is ever written
    to a connecting, closing or closed transport. *)
Theorem actions_only_on_open_transports now st ev a :
  registry_wf st →
  a ∈ (step now st ev).2 →
  isOpen st (actionTarget a) = true.
Proof.
  intros Hwf. revert a. apply Forall_forall.
  destruct ev as [c|w data|w|w|w|w|]; simpl; try by apply Forall_nil.
  - destruct (sockets st !! w) as [sock|]; [|by apply Forall_nil].
    case_bool_decide; [by apply Forall_nil|].
    unfold onMessage. destruct data as [msg|]; [|apply sendError_open].
    destruct (handleMessage now st (boundClientId sock) msg) as [r|] eqn:Hr;
      [|apply sendError_open].
    by eapply handleMessage_open.
  - destruct (sockets st !! w) as [sock|]; [|by apply Forall_nil].
    case_bool_decide; [by apply Forall_nil|].
    eapply Forall_impl; [apply handleDisconnection_open|].
    intros a. apply isOpen_setReadyState_closed.
  - destruct (sockets st !! w) as [sock|]; [|by apply Forall_nil].
    case_bool_decide; by apply Forall_nil.
  - rewrite (healthCheck_actions _ _ Hwf). apply acts_open_flat_map.
    intros [c client]. unfold healthCheckAction, acts_open. simpl.
    destruct (isOpen st (ws client)) eqn:Hopen; [|done].
    case_match; by apply Forall_singleton.
Qed.

Lemma actions_only_on_open_transports_witness :
  registry_wf joined
  ∧ Send 1 (OHostDisconnected "abc") ∈ (step 9 joined (EvClose 0)).2
  ∧ isOpen joined (actionTarget (Send 1 (OHostDisconnected "abc"))) = true.
Proof.
  assert (H0 : registry_wf joined) by exact (reachable_registry_wf _ joined_reachable).
  assert (H1 : Send 1 (OHostDisconnected "abc") ∈ (step 9 joined (EvClose 0)).2).
  { vm_compute. apply list_elem_of_here. }
  split; [exact H0|]. split; [exact H1|].
  exact (actions_only_on_open_transports 9 joined (EvClose 0) _ H0 H1).
Defined.

(** ** Departures *)

(** X8. When the transport of a registered viewer closes (its record names
    viewer id [v] and a non-empty session [s] that is live, whose host
    [hostClientId] is another registered connection with an open
    transport): the entry of [v] leaves the viewer map of [s], nothing else
    of the session record changes, the session stays in the table, the
    viewer is unregistered, and the only frame sent is
    [{t:"viewer-count-changed", s, count}] to the host, with the new size
    of the viewer map. *)
Theorem viewer_close_notifies_host now st w sock c client s v session hostClient :
  registry_wf st →
  sockets st !! w = Some sock → readyState sock ≠ CLOSED →
  boundClientId sock = c →
  jm_get c (clients st) = Some client → ws client = w →
  type client = Some viewer → sessionId client = Some s → s ≠ "" →
  viewerId client = Some v →
  sessions st !! s = Some session →
  jm_get (hostClientId session) (clients st) = Some hostClient →
  hostClientId session ≠ c →
  isOpen st (ws hostClient) = true →
  (step now st (EvClose w)).2
  = [Send (ws hostClient)
       (OViewerCountChanged s (jm_size (jm_delete v (viewers session))))]
  ∧ sessions (step now st (EvClose w)).1
    = <[s := mkSession (hostClientId session) (hostWs session)
               (jm_delete v (viewers session)) (createdAt session)
               (stats session)]> (sessions st)
  ∧ jm_get v (jm_delete v (viewers session)) = None
  ∧ jm_get c (clients (step now st (EvClose w)).1) = None.
Proof.
  intros Hwf Hw Hrs Hbound Hc Hws Hty Hsid Hne Hv Hs Hh Hhc Hopen.
  simpl. rewrite Hw, bool_decide_eq_false_2, Hbound by done.
  unfold handleDisconnection. rewrite setReadyState_clients, Hc.
  unfold disconnectSession, sessionOf.
  rewrite Hsid, (truthy_nonempty _ Hne), setReadyState_sessions, Hs, Hty, Hv.
  cbn [fst snd]. split_and!.
  - unfold sendToClient. cbn [clients set_sessions]. rewrite setReadyState_clients, Hh.
    assert (Hneq : ws hostClient ≠ w).
    { intros Heq. apply Hhc. rewrite <-Hws in Heq.
      by eapply (registry_ws_inj st). }
    replace (isOpen _ (ws hostClient)) with (isOpen st (ws hostClient));
      [by rewrite Hopen|].
    symmetry. rewrite <-(isOpen_setReadyState_ne CLOSED w _ st Hneq).
    apply isOpen_sockets. done.
  - cbn. by rewrite setReadyState_sessions.
  - apply jm_get_delete_eq.
  - cbn. apply jm_get_delete_eq.
Qed.

Lemma viewer_close_notifies_host_witness :
  registry_wf joined
  ∧ sockets joined !! 1 = Some (mkSocket OPEN "client_v1")
  ∧ OPEN ≠ CLOSED
  ∧ jm_get "client_v1" (clients joined)
    = Some (mkClient 1 (Some "abc") (Some viewer) 1 1 (Some "v1"))
  ∧ "abc" ≠ ""
  ∧ sessions joined !! "abc"
    = Some (mkSession "client_h" 0 [("v1", 1); ("v2", 2)] 3 (mkSessionStats 2 2 0))
  ∧ jm_get "client_h" (clients joined)
    = Some (mkClient 0 (Some "abc") (Some host) 0 0 None)
  ∧ "client_h" ≠ "client_v1"
  ∧ isOpen joined 0 = true
  ∧ (step 9 joined (EvClose 1)).2 = [Send 0 (OViewerCountChanged "abc" 1)]
  ∧ sessions (step 9 joined (EvClose 1)).1
    = <["abc" := mkSession "client_h" 0 [("v2", 2)] 3 (mkSessionStats 2 2 0)]>
        (sessions joined)
  ∧ jm_get "v1" [("v2", 2)] = None
  ∧ jm_get "client_v1" (clients (step 9 joined (EvClose 1)).1) = None.
Proof.
  assert (H0 : registry_wf joined) by exact (reachable_registry_wf _ joined_reachable).
  assert (H1 : sockets joined !! 1 = Some (mkSocket OPEN "client_v1")) by reflexivity.
  assert (H2 : OPEN ≠ CLOSED) by discriminate.
  assert (H3 : jm_get "client_v1" (clients joined)
               = Some (mkClient 1 (Some "abc") (Some viewer) 1 1 (Some "v1")))
    by reflexivity.
  assert (H4 : "abc" ≠ "") by discriminate.
  assert (H5 : sessions joined !! "abc"
               = Some (mkSession "client_h" 0 [("v1", 1); ("v2", 2)] 3
                         (mkSessionStats 2 2 0))) by (vm_compute; reflexivity).
  assert (H6 : jm_get "client_h" (clients joined)
               = Some (mkClient 0 (Some "abc") (Some host) 0 0 None)) by reflexivity.
  assert (H7 : "client_h" ≠ "client_v1") by discriminate.
  assert (H8 : isOpen joined 0 = true) by reflexivity.
  split_and!;
    [exact H0|exact H1|exact H2|exact H3|exact H4|exact H5|exact H6|exact H7
    |exact H8|..];
    apply (viewer_close_notifies_host 9 joined 1 (mkSocket OPEN "client_v1")
             "client_v1" (mkClient 1 (Some "abc") (Some viewer) 1 1 (Some "v1"))
             "abc" "v1"
             (mkSession "client_h" 0 [("v1", 1); ("v2", 2)] 3 (mkSessionStats 2 2 0))
             (mkClient 0 (Some "abc") (Some host) 0 0 None)
             H0 H1 H2 eq_refl H3 eq_refl eq_refl eq_refl H4 eq_refl H5 H6 H7 H8).
Defined.

(** X9. Cleanup is idempotent, and a client that is not registered is
    taken as already clean: running [handleDisconnection] again for the
    same client id changes nothing and sends nothing. *)
Theorem disconnection_idempotent st c :
  handleDisconnection (handleDisconnection st c).1 c
  = ((handleDisconnection st c).1, []).
Proof.
  assert (Hgone : jm_get c (clients (handleDisconnection st c).1) = None).
  { unfold handleDisconnection. destruct (jm_get c (clients st)) as [client|].
    - destruct (disconnectSession st client) as [st1 acts]. apply jm_get_delete_eq.
    - apply jm_get_delete_eq. }
  assert (Hs : clientToSession (handleDisconnection st c).1 !! c = None).
  { unfold handleDisconnection. destruct (jm_get c (clients st)) as [client|].
    - destruct (disconnectSession st client) as [st1 acts]. apply lookup_delete_eq.
    - apply lookup_delete_eq. }
  assert (Hv : clientToViewerId (handleDisconnection st c).1 !! c = None).
  { unfold handleDisconnection. destruct (jm_get c (clients st)) as [client|].
    - destruct (disconnectSession st client) as [st1 acts]. apply lookup_delete_eq.
    - apply lookup_delete_eq. }
  destruct (handleDisconnection st c) as [st' acts]. cbn [fst] in *.
  unfold handleDisconnection. rewrite Hgone. f_equal.
  destruct st'. unfold set_clientToViewerId, set_clientToSession, set_clients.
  simpl in *. by rewrite (jm_delete_absent _ _ Hgone), !delete_id.
Qed.

(** ** Accepting a connection *)

(** X10. After a connection is accepted under client id [c] in a state with
    a well-formed registry: [c] is registered with no session, no role and
    no viewer id, both timestamps at the time of acceptance; its transport
    is a new one and open; [getViewerClientId] maps that transport back to
    [c]; the connection counter has grown by one; and the session table is
    untouched. *)
Theorem connection_registers now st c :
  registry_wf st →
  jm_get c (clients (onConnection now st c))
  = Some (mkClient (length (sockets st)) None None now now None)
  ∧ sockets st !! length (sockets st) = None
  ∧ isOpen (onConnection now st c) (length (sockets st)) = true
  ∧ getViewerClientId (onConnection now st c) (length (sockets st)) = Some c
  ∧ totalConnections (serverStats (onConnection now st c))
    = S (totalConnections (serverStats st))
  ∧ sessions (onConnection now st c) = sessions st.
Proof.
  intros Hwf.
  assert (Hget : jm_get c (clients (onConnection now st c))
                 = Some (mkClient (length (sockets st)) None None now now None)).
  { apply jm_get_set_eq. }
  split_and!; [done| | | |done|done].
  - by apply lookup_ge_None.
  - unfold isOpen, onConnection. simpl.
    by rewrite lookup_app_r, Nat.sub_diag.
  - apply (getViewerClientId_owner _ _ _ (registry_wf_connect now st c Hwf) Hget).
Qed.

Lemma connection_registers_witness :
  registry_wf joined
  ∧ jm_get "client_n" (clients (onConnection 9 joined "client_n"))
    = Some (mkClient 3 None None 9 9 None)
  ∧ sockets joined !! 3 = None
  ∧ isOpen (onConnection 9 joined "client_n") 3 = true
  ∧ getViewerClientId (onConnection 9 joined "client_n") 3 = Some "client_n"
  ∧ totalConnections (serverStats (onConnection 9 joined "client_n")) = 4
  ∧ sessions (onConnection 9 joined "client_n") = sessions joined.
Proof.
  assert (H0 : registry_wf joined) by exact (reachable_registry_wf _ joined_reachable).
  split; [exact H0|].
  exact (connection_registers 9 joined "client_n" H0).
Defined.

(** ** The health check and the registry *)

Lemma healthCheck_fold_untouched now l st acts w :
  isOpen st w = false →
  sockets (foldl (healthCheckVisit now) (st, acts) l).1 !! w = sockets st !! w.
Proof.
  revert st acts. induction l as [|[c client] l IH]; intros st acts Hw; [done|].
  cbn [foldl]. unfold healthCheckVisit at 2.
  destruct (isOpen st (ws client)) eqn:Hopen; [|by rewrite IH].
  destruct (PONG_TIMEOUT_MS <? now - lastPong client)%Z; [|by apply IH].
  assert (Hne : w ≠ ws client) by congruence.
  rewrite IH; [by apply terminate_lookup_ne|].
  rewrite (isOpen_sockets st); [done|by apply terminate_lookup_ne].
Qed.

Lemma filter_ext_elem_of {A} (P1 P2 : A → Prop)
    `{!∀ x, Decision (P1 x), !∀ x, Decision (P2 x)} (l : list A) :
  (∀ x, x ∈ l → P1 x ↔ P2 x) → filter P1 l = filter P2 l.
Proof.
  induction l as [|a l IH]; intros Hiff; [done|].
  assert (Hl : filter P1 l = filter P2 l).
  { apply IH. intros x Hx. apply Hiff. by apply list_elem_of_further. }
  pose proof (Hiff a (list_elem_of_here _ _)) as Ha.
  destruct (decide (P1 a)).
  - rewrite !filter_cons_True by tauto. by rewrite Hl.
  - rewrite !filter_cons_False by tauto. done.
Qed.

Lemma healthCheck_fold_clients now l st acts pre :
  NoDup (jm_keys (pre ++ l)) →
  NoDup ((λ kv, ws kv.2) <$> l) →
  clients st = pre ++ l →
  clients (foldl (healthCheckVisit now) (st, acts) l).1
  = pre ++ filter (λ kv, isOpen st (ws kv.2) = true) l.
Proof.
  revert st acts pre. induction l as [|[c client] l IH]; intros st acts pre Hk Hw Hcl.
  - simpl. by rewrite Hcl.
  - rewrite fmap_cons in Hw. apply NoDup_cons in Hw as [Hc Hw]. cbn [snd] in Hc.
    assert (Hrest : ∀ st1,
              (∀ w, w ≠ ws client → sockets st1 !! w = sockets st !! w) →
              filter (λ kv, isOpen st1 (ws kv.2) = true) l
              = filter (λ kv, isOpen st (ws kv.2) = true) l).
    { intros st1 Hs. apply filter_ext_elem_of. intros kv Hin.
      rewrite (isOpen_sockets st st1); [done|]. apply Hs.
      intros Heq. apply Hc. rewrite <-Heq. apply list_elem_of_fmap. by exists kv. }
    cbn [foldl]. unfold healthCheckVisit at 2.
    destruct (isOpen st (ws client)) eqn:Hopen.
    + rewrite filter_cons_True by exact Hopen.
      replace (pre ++ (c, client) :: filter _ l)
        with ((pre ++ [(c, client)]) ++ filter (λ kv, isOpen st (ws kv.2) = true) l)
        by (by rewrite <-app_assoc).
      destruct (PONG_TIMEOUT_MS <? now - lastPong client)%Z.
      * rewrite (IH _ _ (pre ++ [(c, client)])); [|by rewrite <-app_assoc|done|].
        -- f_equal. apply Hrest. intros w Hne. by apply terminate_lookup_ne.
        -- rewrite terminate_clients, Hcl. by rewrite <-app_assoc.
      * rewrite (IH _ _ (pre ++ [(c, client)])); [done|by rewrite <-app_assoc|done|].
        rewrite Hcl. by rewrite <-app_assoc.
    + rewrite filter_cons_False by (simpl; congruence).
      assert (Hpre : jm_get c pre = None).
      { apply jm_get_None_keys. unfold jm_keys in *. rewrite fmap_app in Hk.
        apply NoDup_app in Hk as (_ & Hdisj & _). intros Hin.
        apply (Hdisj _ Hin). rewrite fmap_cons. apply list_elem_of_here. }
      assert (Hl : jm_get c l = None).
      { apply jm_get_None_keys. unfold jm_keys in *. rewrite fmap_app, fmap_cons in Hk.
        by apply NoDup_app in Hk as (_ & _ & [? _]%NoDup_cons). }
      rewrite (IH _ _ pre).
      * f_equal.
      * unfold jm_keys in *. rewrite fmap_app, fmap_cons in Hk. rewrite fmap_app.
        apply NoDup_app in Hk as (Hk1 & Hdisj & [_ Hk2]%NoDup_cons).
        apply NoDup_app. split_and!; [done| |done].
        intros x Hx Hx'. apply (Hdisj x Hx). by apply list_elem_of_further.
      * done.
      * cbn [clients set_clients]. rewrite Hcl, (jm_delete_app_absent _ _ _ Hpre).
        simpl. rewrite decide_True by done. by rewrite (jm_delete_absent _ _ Hl).
Qed.

Lemma healthCheck_clients_filter now st :
  registry_wf st →
  clients (healthCheck now st).1
  = filter (λ kv, isOpen st (ws kv.2) = true) (clients st).
Proof.
  intros (Hk & Hw & _).
  by apply (healthCheck_fold_clients now (clients st) st [] []).
Qed.

(** X11. One firing of the health check, in a state with a well-formed
    registry, keeps in the registry exactly the clients whose transport was
    open when it fired, in their order (also the ones it terminates, which
    stay until their close event), and leaves the session table as it is. *)
Theorem healthCheck_keeps_open_clients now st :
  registry_wf st →
  clients (healthCheck now st).1
  = filter (λ kv, isOpen st (ws kv.2) = true) (clients st)
  ∧ sessions (healthCheck now st).1 = sessions st.
Proof.
  intros Hwf. split; [by apply healthCheck_clients_filter|apply healthCheck_sessions].
Qed.

Lemma healthCheck_keeps_open_clients_witness :
  registry_wf joined
  ∧ clients (healthCheck 70000 joined).1
    = filter (λ kv, isOpen joined (ws kv.2) = true) (clients joined)
  ∧ sessions (healthCheck 70000 joined).1 = sessions joined.
Proof.
  assert (H0 : registry_wf joined) by exact (reachable_registry_wf _ joined_reachable).
  split; [exact H0|].
  exact (healthCheck_keeps_open_clients 70000 joined H0).
Defined.

(** X12. A registered client whose transport is no longer open when the
    health check fires (closing, its close event not yet delivered) is
    dropped from the registry only. The cleanup of its session does not
    happen then, and not later either: when the close event arrives the
    client is not found, so nothing is sent and the session table stays as
    it was before the check, a session it hosted included. *)
Theorem stale_client_skips_session_cleanup now now' st c client sock :
  registry_wf st →
  jm_get c (clients st) = Some client →
  sockets st !! ws client = Some sock →
  readyState sock ≠ OPEN → readyState sock ≠ CLOSED →
  boundClientId sock = c →
  jm_get c (clients (healthCheck now st).1) = None
  ∧ sessions (healthCheck now st).1 = sessions st
  ∧ (step now' (healthCheck now st).1 (EvClose (ws client))).2 = []
  ∧ sessions (step now' (healthCheck now st).1 (EvClose (ws client))).1
    = sessions st.
Proof.
  intros Hwf Hc Hsock Hnopen Hnclosed Hbound.
  assert (Hclosed : isOpen st (ws client) = false).
  { unfold isOpen. rewrite Hsock. by apply bool_decide_eq_false_2. }
  pose proof (healthCheck_clients_filter now st Hwf) as Hcl.
  pose proof (healthCheck_sessions now st) as Hs.
  assert (Hgone : jm_get c (clients (healthCheck now st).1) = None).
  { rewrite Hcl. apply jm_get_None_keys. unfold jm_keys.
    intros [[k cl] [Hkv Hin]]%list_elem_of_fmap. simpl in Hkv. subst k.
    apply list_elem_of_filter in Hin as [Hopen Hin]. simpl in Hopen.
    assert (Hcl' : jm_get c (clients st) = Some cl).
    { apply jm_elem_of_get; [apply Hwf|done]. }
    congruence. }
  assert (Hsock' : sockets (healthCheck now st).1 !! ws client = Some sock).
  { unfold healthCheck. by rewrite healthCheck_fold_untouched. }
  split; [done|]. split; [done|].
  simpl. rewrite Hsock', bool_decide_eq_false_2, Hbound by done.
  unfold handleDisconnection. rewrite setReadyState_clients, Hgone.
  cbn. by rewrite setReadyState_sessions.
Qed.

Lemma host_closing_reachable : reachable host_closing.
Proof. apply reach_step, joined_reachable. Qed.

Lemma stale_client_skips_session_cleanup_witness :
  registry_wf host_closing
  ∧ jm_get "client_h" (clients host_closing)
    = Some (mkClient 0 (Some "abc") (Some host) 0 0 None)
  ∧ sockets host_closing !! 0 = Some (mkSocket CLOSING "client_h")
  ∧ CLOSING ≠ OPEN ∧ CLOSING ≠ CLOSED
  ∧ jm_get "client_h" (clients (healthCheck 30000 host_closing).1) = None
  ∧ sessions (healthCheck 30000 host_closing).1 = sessions host_closing
  ∧ (step 30001 (healthCheck 30000 host_closing).1 (EvClose 0)).2 = []
  ∧ sessions (step 30001 (healthCheck 30000 host_closing).1 (EvClose 0)).1
    = sessions host_closing.
Proof.
  assert (H0 : registry_wf host_closing)
    by exact (reachable_registry_wf _ host_closing_reachable).
  assert (H1 : jm_get "client_h" (clients host_closing)
               = Some (mkClient 0 (Some "abc") (Some host) 0 0 None)) by reflexivity.
  assert (H2 : sockets host_closing !! 0 = Some (mkSocket CLOSING "client_h"))
    by reflexivity.
  assert (H3 : CLOSING ≠ OPEN) by discriminate.
  assert (H4 : CLOSING ≠ CLOSED) by discriminate.
  split_and!; [exact H0|exact H1|exact H2|exact H3|exact H4|..];
    apply (stale_client_skips_session_cleanup 30000 30001 host_closing "client_h"
             (mkClient 0 (Some "abc") (Some host) 0 0 None)
             (mkSocket CLOSING "client_h") H0 H1 H2 H3 H4 eq_refl).
Defined.

(** ** Announcing and joining *)

Lemma sendToClient_registered st c client m :
  jm_get c (clients st) = Some client → isOpen st (ws client) = true →
  sendToClient st c m = [Send (ws client) m].
Proof. intros Hc Hopen. unfold sendToClient. by rewrite Hc, Hopen. Qed.

(** X13. Scenarios A and B for any state: a host-ready from a registered
    connection [h] for an identifier not in the table creates the session
    with [h] as host, no viewers and zero counters, counts one more active
    session, and acknowledges [h]; a viewer-join of another registered
    connection [c] that follows adds [c] under its viewer id, sends the
    host [{t:"viewer-joined", viewerId, viewerCount: 1}] and then [c] its
    acknowledgment, and leaves the counters at one viewer in total, peak
    one. Both transports are open. *)
Theorem host_ready_then_viewer_join now now' st h hostClient c client s uid :
  jm_get h (clients st) = Some hostClient →
  jm_get c (clients st) = Some client →
  h ≠ c →
  isOpen st (ws hostClient) = true → isOpen st (ws client) = true →
  sessions st !! s = None →
  ∃ st1 st2,
    handleMessage now st h (FHostReady s)
    = Some (st1, [Send (ws hostClient) (OHostReadyAck s)])
    ∧ sessions st1 !! s
      = Some (mkSession h (ws hostClient) [] now (mkSessionStats 0 0 0))
    ∧ activeSessions (serverStats st1) = (activeSessions (serverStats st) + 1)%Z
    ∧ handleMessage now' st1 c (FViewerJoin s uid)
      = Some (st2, [Send (ws hostClient) (OViewerJoined uid 1);
                    Send (ws client) (OViewerJoinedAck s uid)])
    ∧ sessions st2 !! s
      = Some (mkSession h (ws hostClient) [(uid, ws client)] now
                (mkSessionStats 1 1 0)).
Proof.
  intros Hh Hc Hne Hoh Hoc Hs.
  rewrite (handleMessage_registered _ _ _ _ _ Hh).
  unfold handleHostReady. rewrite Hh, Hs.
  set (hostClient' := mkClient (ws hostClient) (Some s) (Some host)
                        (connectedAt hostClient) (lastPong hostClient)
                        (viewerId hostClient)).
  set (st1 := set_clientToSession _ _).
  assert (Hh1 : jm_get h (clients st1) = Some hostClient') by apply jm_get_set_eq.
  assert (Hc1 : jm_get c (clients st1) = Some client).
  { subst st1. cbn. by rewrite jm_get_set_ne. }
  assert (Hs1 : sessions st1 !! s
                = Some (mkSession h (ws hostClient) [] now (mkSessionStats 0 0 0))).
  { subst st1. cbn. apply lookup_insert_eq. }
  exists st1. eexists. split_and!.
  - f_equal. f_equal. by apply (sendToClient_registered st1 h hostClient').
  - done.
  - done.
  - rewrite (handleMessage_registered _ _ _ _ _ Hc1).
    unfold handleViewerJoin. rewrite Hc1, Hs1.
    cbn [viewers hostClientId jm_set jm_size length].
    f_equal. f_equal.
    set (st2 := set_clients _ _).
    assert (Hh2 : jm_get h (clients st2) = Some hostClient').
    { subst st2. cbn [clients set_clients]. by rewrite jm_get_set_ne. }
    rewrite (sendToClient_registered st2 h hostClient' _ Hh2 Hoh).
    rewrite (sendToClient_registered st2 c
               (mkClient (ws client) (Some s) (Some viewer) (connectedAt client)
                  (lastPong client) (Some uid)));
      [done|apply jm_get_set_eq|done].
  - cbn. by rewrite lookup_insert_eq.
Qed.

Lemma host_ready_then_viewer_join_witness :
  jm_get "client_h" (clients two_connected) = Some (mkClient 0 None None 0 0 None)
  ∧ jm_get "client_v1" (clients two_connected) = Some (mkClient 1 None None 1 1 None)
  ∧ "client_h" ≠ "client_v1"
  ∧ isOpen two_connected 0 = true ∧ isOpen two_connected 1 = true
  ∧ sessions two_connected !! "abc" = None
  ∧ ∃ st1 st2,
      handleMessage 3 two_connected "client_h" (FHostReady "abc")
      = Some (st1, [Send 0 (OHostReadyAck "abc")])
      ∧ sessions st1 !! "abc"
        = Some (mkSession "client_h" 0 [] 3 (mkSessionStats 0 0 0))
      ∧ activeSessions (serverStats st1)
        = (activeSessions (serverStats two_connected) + 1)%Z
      ∧ handleMessage 4 st1 "client_v1" (FViewerJoin "abc" "v1")
        = Some (st2, [Send 0 (OViewerJoined "v1" 1);
                      Send 1 (OViewerJoinedAck "abc" "v1")])
      ∧ sessions st2 !! "abc"
        = Some (mkSession "client_h" 0 [("v1", 1)] 3 (mkSessionStats 1 1 0)).
Proof.
  assert (H1 : jm_get "client_h" (clients two_connected)
               = Some (mkClient 0 None None 0 0 None)) by reflexivity.
  assert (H2 : jm_get "client_v1" (clients two_connected)
               = Some (mkClient 1 None None 1 1 None)) by reflexivity.
  assert (H3 : "client_h" ≠ "client_v1") by discriminate.
  assert (H4 : isOpen two_connected 0 = true) by reflexivity.
  assert (H5 : isOpen two_connected 1 = true) by reflexivity.
  assert (H6 : sessions two_connected !! "abc" = None) by (vm_compute; reflexivity).
  split_and!; [exact H1|exact H2|exact H3|exact H4|exact H5|exact H6|].
  exact (host_ready_then_viewer_join 3 4 two_connected "client_h"
           (mkClient 0 None None 0 0 None) "client_v1"
           (mkClient 1 None None 1 1 None) "abc" "v1" H1 H2 H3 H4 H5 H6).
Defined.

(** ** Answers and candidates *)

(** What a successful viewer-join leaves behind, as the later handlers of
    the joining connection read it. *)
Lemma viewer_join_state st c client s session uid st1 a1 :
  jm_get c (clients st) = Some client →
  sessions st !! s = Some session →
  handleViewerJoin st c s uid = Some (st1, a1) →
  jm_get c (clients st1)
  = Some (mkClient (ws client) (Some s) (Some viewer) (connectedAt client)
            (lastPong client) (Some uid))
  ∧ clientToViewerId st1 !! c = Some uid
  ∧ sockets st1 = sockets st
  ∧ (∃ session', sessions st1 !! s = Some session'
                 ∧ hostClientId session' = hostClientId session)
  ∧ ∀ h hostClient, jm_get h (clients st) = Some hostClient →
      ∃ hostClient', jm_get h (clients st1) = Some hostClient'
                     ∧ ws hostClient' = ws hostClient.
Proof.
  intros Hc Hs. unfold handleViewerJoin. rewrite Hc, Hs. intros [= <- <-].
  cbn. split_and!.
  - apply jm_get_set_eq.
  - apply lookup_insert_eq.
  - done.
  - eexists. split; [apply lookup_insert_eq|done].
  - intros h hostClient Hh. destruct (decide (c = h)) as [->|Hne].
    + eexists. split; [apply jm_get_set_eq|]. simpl. congruence.
    + exists hostClient. by rewrite jm_get_set_ne.
Qed.

(** X14. After a connection has joined session [s] under viewer id [uid],
    an answer frame it sends for [s] is delivered to the host of [s]
    (registered, transport open) as [{t:"answer", s, d, viewerId: uid}] with
    the payload as received, and changes no state; but if it joined under
    the empty viewer id the answer is dropped, because the handler takes an
    empty id for a connection that never joined. *)
Theorem answer_after_join now st c client s session hostClient uid d st1 a1 :
  jm_get c (clients st) = Some client →
  sessions st !! s = Some session →
  jm_get (hostClientId session) (clients st) = Some hostClient →
  isOpen st (ws hostClient) = true →
  handleViewerJoin st c s uid = Some (st1, a1) →
  (uid ≠ "" →
   handleMessage now st1 c (FAnswer s d)
   = Some (st1, [Send (ws hostClient) (OAnswer s d uid)]))
  ∧ (uid = "" → handleMessage now st1 c (FAnswer s d) = Some (st1, [])).
Proof.
  intros Hc Hs Hh Hopen Hjoin.
  destruct (viewer_join_state _ _ _ _ _ _ _ _ Hc Hs Hjoin)
    as (Hc1 & Hv1 & Hso & (session' & Hs1 & Hhost) & Hkeep).
  destruct (Hkeep _ _ Hh) as (hostClient' & Hh1 & Hws).
  rewrite (handleMessage_registered _ _ _ _ _ Hc1).
  unfold handleAnswer. rewrite Hs1, Hv1, Hhost. split.
  - intros Hne. rewrite (truthy_nonempty _ Hne).
    rewrite (sendToClient_registered st1 _ hostClient'); [by rewrite Hws|done|].
    rewrite Hws. unfold isOpen in *. by rewrite Hso.
  - by intros ->.
Qed.

Lemma answer_after_join_witness :
  jm_get "client_x" (clients one_viewer) = Some (mkClient 2 None None 2 2 None)
  ∧ sessions one_viewer !! "abc"
    = Some (mkSession "client_h" 0 [("v1", 1)] 3 (mkSessionStats 1 1 0))
  ∧ jm_get "client_h" (clients one_viewer)
    = Some (mkClient 0 (Some "abc") (Some host) 0 0 None)
  ∧ isOpen one_viewer 0 = true
  ∧ ∃ st1 a1,
      handleViewerJoin one_viewer "client_x" "abc" "v9" = Some (st1, a1)
      ∧ ("v9" ≠ "" →
         handleMessage 9 st1 "client_x" (FAnswer "abc" (JStr "sdp"))
         = Some (st1, [Send 0 (OAnswer "abc" (JStr "sdp") "v9")]))
      ∧ ("v9" = "" →
         handleMessage 9 st1 "client_x" (FAnswer "abc" (JStr "sdp"))
         = Some (st1, [])).
Proof.
  assert (H1 : jm_get "client_x" (clients one_viewer)
               = Some (mkClient 2 None None 2 2 None)) by reflexivity.
  assert (H2 : sessions one_viewer !! "abc"
               = Some (mkSession "client_h" 0 [("v1", 1)] 3 (mkSessionStats 1 1 0)))
    by (vm_compute; reflexivity).
  assert (H3 : jm_get "client_h" (clients one_viewer)
               = Some (mkClient 0 (Some "abc") (Some host) 0 0 None)) by reflexivity.
  assert (H4 : isOpen one_viewer 0 = true) by reflexivity.
  split_and!; [exact H1|exact H2|exact H3|exact H4|].
  destruct (handleViewerJoin one_viewer "client_x" "abc" "v9") as [[st1 a1]|] eqn:Hj.
  - exists st1, a1. split; [reflexivity|].
    exact (answer_after_join 9 one_viewer "client_x" _ "abc" _ _ "v9" (JStr "sdp")
             st1 a1 H1 H2 H3 H4 Hj).
  - unfold handleViewerJoin in Hj. rewrite H1, H2 in Hj. discriminate Hj.
Defined.

(** X15. After a connection has joined the non-empty session [s] under
    viewer id [uid], an ice-candidate frame it sends goes to the host of
    [s], the session of its own record, whatever session identifier the
    frame itself carries; the frame's identifier and payload are passed on,
    tagged [from: "viewer"] with [viewerId: uid]. No state changes. *)
Theorem ice_from_viewer_after_join now st c client s session hostClient uid
    s0 d target st1 a1 :
  jm_get c (clients st) = Some client →
  sessions st !! s = Some session →
  s ≠ "" →
  jm_get (hostClientId session) (clients st) = Some hostClient →
  isOpen st (ws hostClient) = true →
  handleViewerJoin st c s uid = Some (st1, a1) →
  handleMessage now st1 c (FIceCandidate s0 d target)
  = Some (st1, [Send (ws hostClient) (OIceFromViewer s0 d (Some uid))]).
Proof.
  intros Hc Hs Hne Hh Hopen Hjoin.
  destruct (viewer_join_state _ _ _ _ _ _ _ _ Hc Hs Hjoin)
    as (Hc1 & Hv1 & Hso & (session' & Hs1 & Hhost) & Hkeep).
  destruct (Hkeep _ _ Hh) as (hostClient' & Hh1 & Hws).
  rewrite (handleMessage_registered _ _ _ _ _ Hc1).
  unfold handleIceCandidate, sessionOf. rewrite Hc1. cbn [sessionId type viewerId].
  rewrite (truthy_nonempty _ Hne), Hs1, Hhost.
  rewrite (sendToClient_registered st1 _ hostClient'); [by rewrite Hws|done|].
  rewrite Hws. unfold isOpen in *. by rewrite Hso.
Qed.

Lemma ice_from_viewer_after_join_witness :
  jm_get "client_x" (clients one_viewer) = Some (mkClient 2 None None 2 2 None)
  ∧ sessions one_viewer !! "abc"
    = Some (mkSession "client_h" 0 [("v1", 1)] 3 (mkSessionStats 1 1 0))
  ∧ "abc" ≠ ""
  ∧ jm_get "client_h" (clients one_viewer)
    = Some (mkClient 0 (Some "abc") (Some host) 0 0 None)
  ∧ isOpen one_viewer 0 = true
  ∧ ∃ st1 a1,
      handleViewerJoin one_viewer "client_x" "abc" "v9" = Some (st1, a1)
      ∧ handleMessage 9 st1 "client_x" (FIceCandidate "other" (JStr "cand") "")
        = Some (st1, [Send 0 (OIceFromViewer "other" (JStr "cand") (Some "v9"))]).
Proof.
  assert (H1 : jm_get "client_x" (clients one_viewer)
               = Some (mkClient 2 None None 2 2 None)) by reflexivity.
  assert (H2 : sessions one_viewer !! "abc"
               = Some (mkSession "client_h" 0 [("v1", 1)] 3 (mkSessionStats 1 1 0)))
    by (vm_compute; reflexivity).
  assert (H3 : "abc" ≠ "") by discriminate.
  assert (H4 : jm_get "client_h" (clients one_viewer)
               = Some (mkClient 0 (Some "abc") (Some host) 0 0 None)) by reflexivity.
  assert (H5 : isOpen one_viewer 0 = true) by reflexivity.
  split_and!; [exact H1|exact H2|exact H3|exact H4|exact H5|].
  destruct (handleViewerJoin one_viewer "client_x" "abc" "v9") as [[st1 a1]|] eqn:Hj.
  - exists st1, a1. split; [reflexivity|].
    exact (ice_from_viewer_after_join 9 one_viewer "client_x" _ "abc" _ _ "v9"
             "other" (JStr "cand") "" st1 a1 H1 H2 H3 H4 H5 Hj).
  - unfold handleViewerJoin in Hj. rewrite H1, H2 in Hj. discriminate Hj.
Defined.

(** X16. An ice-candidate frame from a connection recorded as host of the
    live, non-empty session [s] is routed by the viewer id it names: if the
    viewer map of [s] holds under it the open transport of a registered
    connection, that connection alone is sent the candidate, tagged
    [from: "host"], with the frame's identifier and payload; if the viewer
    map has no such id, nothing is sent. The state is unchanged in both
    cases. *)
Theorem ice_from_host_to_viewer now st h hostClient s session s0 d :
  registry_wf st →
  jm_get h (clients st) = Some hostClient →
  type hostClient = Some host → sessionId hostClient = Some s → s ≠ "" →
  sessions st !! s = Some session →
  (∀ V c client,
     jm_get V (viewers session) = Some (ws client) →
     jm_get c (clients st) = Some client →
     isOpen st (ws client) = true →
     handleMessage now st h (FIceCandidate s0 d V)
     = Some (st, [Send (ws client) (OIceFromHost s0 d)]))
  ∧ (∀ V, jm_get V (viewers session) = None →
          handleMessage now st h (FIceCandidate s0 d V) = Some (st, [])).
Proof.
  intros Hwf Hh Hty Hsid Hne Hs.
  assert (Hroute : ∀ V, handleMessage now st h (FIceCandidate s0 d V)
            = Some (match jm_get V (viewers session) with
                    | Some viewerWs =>
                        (st, sendToOwner st viewerWs (OIceFromHost s0 d))
                    | None => (st, [])
                    end)).
  { intros V. rewrite (handleMessage_registered _ _ _ _ _ Hh).
    unfold handleIceCandidate, sessionOf.
    by rewrite Hh, Hsid, (truthy_nonempty _ Hne), Hs, Hty. }
  split.
  - intros V c client HV Hc Hopen. rewrite Hroute, HV.
    by rewrite (sendToOwner_registered _ _ _ _ Hwf Hc), Hopen.
  - intros V HV. by rewrite Hroute, HV.
Qed.

Lemma ice_from_host_to_viewer_witness :
  registry_wf joined
  ∧ jm_get "client_h" (clients joined)
    = Some (mkClient 0 (Some "abc") (Some host) 0 0 None)
  ∧ "abc" ≠ ""
  ∧ sessions joined !! "abc"
    = Some (mkSession "client_h" 0 [("v1", 1); ("v2", 2)] 3 (mkSessionStats 2 2 0))
  ∧ (∀ V c client,
       jm_get V [("v1", 1); ("v2", 2)] = Some (ws client) →
       jm_get c (clients joined) = Some client →
       isOpen joined (ws client) = true →
       handleMessage 9 joined "client_h" (FIceCandidate "abc" (JStr "cand") V)
       = Some (joined, [Send (ws client) (OIceFromHost "abc" (JStr "cand"))]))
  ∧ (∀ V, jm_get V [("v1", 1); ("v2", 2)] = None →
          handleMessage 9 joined "client_h" (FIceCandidate "abc" (JStr "cand") V)
          = Some (joined, [])).
Proof.
  assert (H0 : registry_wf joined) by exact (reachable_registry_wf _ joined_reachable).
  assert (H1 : jm_get "client_h" (clients joined)
               = Some (mkClient 0 (Some "abc") (Some host) 0 0 None)) by reflexivity.
  assert (H2 : "abc" ≠ "") by discriminate.
  assert (H3 : sessions joined !! "abc"
               = Some (mkSession "client_h" 0 [("v1", 1); ("v2", 2)] 3
                         (mkSessionStats 2 2 0))) by (vm_compute; reflexivity).
  split_and!; [exact H0|exact H1|exact H2|exact H3|..];
    apply (ice_from_host_to_viewer 9 joined "client_h"
             (mkClient 0 (Some "abc") (Some host) 0 0 None) "abc"
             (mkSession "client_h" 0 [("v1", 1); ("v2", 2)] 3 (mkSessionStats 2 2 0))
             "abc" (JStr "cand") H0 H1 eq_refl eq_refl H2 H3).
Defined.

(** ** Who may send an offer *)

(** X17. An offer produces an operation only if the session it names is in
    the table, the sender is the host that session names, and the viewer
    map has the target id; what is then sent is the offer frame, on the
    transport the viewer map holds. From any other sender, for an unknown
    session or an unknown target, the offer is dropped without a reply. *)
Theorem offer_forwarded_only_from_host now st c s d V r :
  handleMessage now st c (FOffer s d V) = Some r →
  r.2 ≠ [] →
  ∃ session w,
    sessions st !! s = Some session
    ∧ hostClientId session = c
    ∧ jm_get V (viewers session) = Some w
    ∧ r.2 = sendToOwner st w (OOffer s d c).
Proof.
  unfold handleMessage. destruct (jm_get c (clients st)); [|by intros [= <-]].
  unfold handleOffer. destruct (sessions st !! s) as [session|]; [|by intros [= <-]].
  destruct (decide (hostClientId session = c)) as [Hhost|]; [|by intros [= <-]].
  destruct (jm_get V (viewers session)) as [w|] eqn:HV; [|by intros [= <-]].
  intros [= <-] _. by exists session, w.
Qed.

Lemma offer_forwarded_only_from_host_witness :
  handleMessage 9 joined "client_h" (FOffer "abc" (JStr "sdp") "v2")
  = Some (joined, [Send 2 (OOffer "abc" (JStr "sdp") "client_h")])
  ∧ (joined, [Send 2 (OOffer "abc" (JStr "sdp") "client_h")]).2 ≠ []
  ∧ ∃ session w,
      sessions joined !! "abc" = Some session
      ∧ hostClientId session = "client_h"
      ∧ jm_get "v2" (viewers session) = Some w
      ∧ (joined, [Send 2 (OOffer "abc" (JStr "sdp") "client_h")]).2
        = sendToOwner joined w (OOffer "abc" (JStr "sdp") "client_h").
Proof.
  assert (H1 : handleMessage 9 joined "client_h" (FOffer "abc" (JStr "sdp") "v2")
               = Some (joined, [Send 2 (OOffer "abc" (JStr "sdp") "client_h")]))
    by (vm_compute; reflexivity).
  assert (H2 : (joined, [Send 2 (OOffer "abc" (JStr "sdp") "client_h")]).2 ≠ [])
    by discriminate.
  split; [exact H1|]. split; [exact H2|].
  exact (offer_forwarded_only_from_host 9 joined "client_h" "abc" (JStr "sdp") "v2"
           _ H1 H2).
Defined.

(** ** Cursor frames *)

Lemma js_set_of_head seen x l : x ∉ seen → x ∈ js_set_of seen (x :: l).
Proof. intros Hx. simpl. rewrite decide_False by done. apply list_elem_of_here. Qed.

(** X18. A cursor frame from a registered connection that belongs to the
    live, non-empty session [s] reaches the host of [s] unchanged, when the
    host is another registered connection with an open transport; the
    sender itself is never sent anything; and whatever is sent is that
    cursor frame. The state is unchanged. *)
Theorem cursor_reaches_host_never_sender now st c client s session hostClient uid pos :
  registry_wf st →
  jm_get c (clients st) = Some client →
  sessionId client = Some s → s ≠ "" →
  sessions st !! s = Some session →
  jm_get (hostClientId session) (clients st) = Some hostClient →
  hostClientId session ≠ c →
  isOpen st (ws hostClient) = true →
  ∃ acts,
    handleMessage now st c (FCursor uid pos) = Some (st, acts)
    ∧ Send (ws hostClient) (OCursor uid pos) ∈ acts
    ∧ (∀ f, Send (ws client) f ∉ acts)
    ∧ ∀ a, a ∈ acts → ∃ w, a = Send w (OCursor uid pos).
Proof.
  intros Hwf Hc Hsid Hne Hs Hh Hhc Hopen.
  rewrite (handleMessage_registered _ _ _ _ _ Hc).
  unfold handleCursor, sessionOf. rewrite Hc, Hsid, (truthy_nonempty _ Hne), Hs.
  eexists. split; [reflexivity|].
  assert (Hin : ∀ a,
            a ∈ flat_map (λ id, sendToClient st id (OCursor uid pos))
                  (cursorRecipients session c) →
            ∃ id cl, id ≠ c ∧ jm_get id (clients st) = Some cl
                     ∧ a = Send (ws cl) (OCursor uid pos)).
  { intros a Ha. apply list_elem_of_In, in_flat_map in Ha as (id & Hid & Ha).
    apply list_elem_of_In in Hid, Ha. unfold cursorRecipients, js_set_delete in Hid.
    apply list_elem_of_filter in Hid as [Hidc _].
    unfold sendToClient in Ha. destruct (jm_get id (clients st)) as [cl|] eqn:Hcl;
      [|by apply elem_of_nil in Ha].
    destruct (isOpen st (ws cl)); [|by apply elem_of_nil in Ha].
    apply list_elem_of_singleton in Ha. by exists id, cl. }
  split_and!.
  - apply (elem_of_flat_map _ _ (hostClientId session)).
    + unfold cursorRecipients, js_set_delete. apply list_elem_of_filter.
      split; [done|]. apply js_set_of_head, not_elem_of_nil.
    + rewrite (sendToClient_registered _ _ _ _ Hh Hopen). apply list_elem_of_here.
  - intros f Hf. destruct (Hin _ Hf) as (id & cl & Hid & Hcl & [= Hw _]).
    apply Hid. symmetry. by eapply (registry_ws_inj st).
  - intros a Ha. destruct (Hin _ Ha) as (id & cl & _ & _ & ->). by eexists.
Qed.

Lemma cursor_reaches_host_never_sender_witness :
  registry_wf joined
  ∧ jm_get "client_v1" (clients joined)
    = Some (mkClient 1 (Some "abc") (Some viewer) 1 1 (Some "v1"))
  ∧ "abc" ≠ ""
  ∧ sessions joined !! "abc"
    = Some (mkSession "client_h" 0 [("v1", 1); ("v2", 2)] 3 (mkSessionStats 2 2 0))
  ∧ jm_get "client_h" (clients joined)
    = Some (mkClient 0 (Some "abc") (Some host) 0 0 None)
  ∧ "client_h" ≠ "client_v1"
  ∧ isOpen joined 0 = true
  ∧ ∃ acts,
      handleMessage 9 joined "client_v1" (FCursor (JStr "v1") JNull)
      = Some (joined, acts)
      ∧ Send 0 (OCursor (JStr "v1") JNull) ∈ acts
      ∧ (∀ f, Send 1 f ∉ acts)
      ∧ ∀ a, a ∈ acts → ∃ w, a = Send w (OCursor (JStr "v1") JNull).
Proof.
  assert (H0 : registry_wf joined) by exact (reachable_registry_wf _ joined_reachable).
  assert (H1 : jm_get "client_v1" (clients joined)
               = Some (mkClient 1 (Some "abc") (Some viewer) 1 1 (Some "v1")))
    by reflexivity.
  assert (H2 : "abc" ≠ "") by discriminate.
  assert (H3 : sessions joined !! "abc"
               = Some (mkSession "client_h" 0 [("v1", 1); ("v2", 2)] 3
                         (mkSessionStats 2 2 0))) by (vm_compute; reflexivity).
  assert (H4 : jm_get "client_h" (clients joined)
               = Some (mkClient 0 (Some "abc") (Some host) 0 0 None)) by reflexivity.
  assert (H5 : "client_h" ≠ "client_v1") by discriminate.
  assert (H6 : isOpen joined 0 = true) by reflexivity.
  split_and!; [exact H0|exact H1|exact H2|exact H3|exact H4|exact H5|exact H6|].
  exact (cursor_reaches_host_never_sender 9 joined "client_v1"
           (mkClient 1 (Some "abc") (Some viewer) 1 1 (Some "v1")) "abc"
           (mkSession "client_h" 0 [("v1", 1); ("v2", 2)] 3 (mkSessionStats 2 2 0))
           (mkClient 0 (Some "abc") (Some host) 0 0 None) (JStr "v1") JNull
           H0 H1 eq_refl H2 H3 H4 H5 H6).
Defined.

(** ** The uptime text *)

Lemma string_length_app (s1 s2 : string) :
  String.length (String.append s1 s2) = String.length s1 + String.length s2.
Proof. induction s1 as [|a s1 IH]; simpl; [done|]. by rewrite IH. Qed.

Lemma string_app_cancel (x1 x2 t1 t2 : string) :
  String.append x1 t1 = String.append x2 t2 →
  String.length t1 = String.length t2 →
  x1 = x2 ∧ t1 = t2.
Proof.
  revert x2. induction x1 as [|a x1 IH]; intros [|b x2] Heq Hlen;
    cbv [String.append] in Heq; fold String.append in Heq.
  - done.
  - rewrite Heq in Hlen. cbn [String.length] in Hlen.
    rewrite string_length_app in Hlen. lia.
  - rewrite <-Heq in Hlen. cbn [String.length] in Hlen.
    rewrite string_length_app in Hlen. lia.
  - injection Heq as -> Heq. destruct (IH _ Heq Hlen) as [-> ->]. done.
Qed.

Lemma padStart_two_digits (n : Z) :
  (0 ≤ n < 100)%Z →
  ∃ a b, padStart 2 "0"%char (numberToString n) = String a (String b "").
Proof.
  intros Hn.
  assert (Hall : forallb (λ k,
            match padStart 2 "0"%char (numberToString (Z.of_nat k)) with
            | String _ (String _ "") => true
            | _ => false
            end) (seq 0 100) = true) by (vm_compute; reflexivity).
  rewrite forallb_forall in Hall. specialize (Hall (Z.to_nat n)).
  rewrite Z2Nat.id in Hall by lia.
  assert (Hin : In (Z.to_nat n) (seq 0 100)) by (apply in_seq; lia).
  specialize (Hall Hin).
  destruct (padStart 2 "0"%char (numberToString n)) as [|a [|b [|]]]; try done.
  by exists a, b.
Qed.

Lemma decimalValue_zero_prefix k s :
  decimalValue (String.append (String.string_of_list_ascii (replicate k "0"%char)) s)
  = decimalValue s.
Proof.
  induction k as [|k IH]; [done|]. simpl. unfold decimalValue in *. simpl.
  destruct (NilEmpty.uint_of_string (String.append _ s)) as [d|] eqn:Hd;
    destruct (NilEmpty.uint_of_string s) as [d'|]; simpl in *; try done.
Qed.

Lemma decimalValue_padStart (n : Z) :
  (0 ≤ n)%Z → decimalValue (padStart 2 "0"%char (numberToString n)) = Some n.
Proof.
  intros Hn. unfold padStart. rewrite decimalValue_zero_prefix.
  unfold decimalValue, numberToString. destruct n as [|p|p]; [done| |lia].
  simpl. unfold NilZero.string_of_uint.
  destruct (Pos.to_uint p) eqn:Hp;
    [by apply DecimalPos.Unsigned.to_uint_nonnil in Hp|..];
    rewrite <-Hp, NilEmpty.usu; simpl; unfold Z.of_uint;
    by rewrite DecimalPos.Unsigned.of_to.
Qed.

(** X19. For an uptime below one hundred hours the text is exactly eight
    characters, two digits each for hours, minutes and seconds with a colon
    after the second and after the fifth. *)
Theorem formatUptime_shape (ms : Z) :
  (0 ≤ ms < 360000000)%Z →
  String.length (formatUptime ms) = 8
  ∧ String.get 2 (formatUptime ms) = Some ":"%char
  ∧ String.get 5 (formatUptime ms) = Some ":"%char.
Proof.
  intros Hms. unfold formatUptime.
  assert (Hs : (0 ≤ ms / 1000)%Z) by (apply Z.div_pos; lia).
  assert (Hm : (0 ≤ ms / 1000 / 60)%Z) by (apply Z.div_pos; lia).
  assert (Hh : (0 ≤ ms / 1000 / 60 / 60 < 100)%Z).
  { split; [apply Z.div_pos; lia|].
    apply Z.div_lt_upper_bound; [lia|]. apply Z.div_lt_upper_bound; [lia|].
    apply Z.div_lt_upper_bound; lia. }
  destruct (padStart_two_digits _ Hh) as (h1 & h2 & ->).
  destruct (padStart_two_digits (Z.rem (ms / 1000 / 60) 60)) as (m1 & m2 & ->).
  { rewrite Z.rem_mod_nonneg by lia.
    pose proof (Z.mod_pos_bound (ms / 1000 / 60) 60). lia. }
  destruct (padStart_two_digits (Z.rem (ms / 1000) 60)) as (s1 & s2 & ->).
  { rewrite Z.rem_mod_nonneg by lia.
    pose proof (Z.mod_pos_bound (ms / 1000) 60). lia. }
  done.
Qed.

Lemma formatUptime_shape_witness :
  (0 ≤ 3725999 < 360000000)%Z
  ∧ String.length (formatUptime 3725999) = 8
  ∧ String.get 2 (formatUptime 3725999) = Some ":"%char
  ∧ String.get 5 (formatUptime 3725999) = Some ":"%char.
Proof.
  assert (H : (0 ≤ 3725999 < 360000000)%Z) by lia.
  split; [exact H|]. exact (formatUptime_shape 3725999 H).
Defined.

(** X20. For non-negative uptimes (integer milliseconds in the exact range
    of JavaScript numbers) the text shows the whole seconds and nothing
    else: two uptimes give the same text exactly when they have the same
    number of whole seconds (hours may take more than two digits). *)
Theorem formatUptime_whole_seconds (a b : Z) :
  (0 ≤ a ≤ MAX_SAFE_INTEGER)%Z → (0 ≤ b ≤ MAX_SAFE_INTEGER)%Z →
  formatUptime a = formatUptime b ↔ (a / 1000 = b / 1000)%Z.
Proof.
  intros [Ha _] [Hb _]. split; [|unfold formatUptime; by intros ->].
  unfold formatUptime.
  set (sa := (a / 1000)%Z). set (sb := (b / 1000)%Z).
  assert (Hsa : (0 ≤ sa)%Z) by (apply Z.div_pos; lia).
  assert (Hsb : (0 ≤ sb)%Z) by (apply Z.div_pos; lia).
  assert (Hma : (0 ≤ sa / 60)%Z) by (apply Z.div_pos; lia).
  assert (Hmb : (0 ≤ sb / 60)%Z) by (apply Z.div_pos; lia).
  assert (Hha : (0 ≤ sa / 60 / 60)%Z) by (apply Z.div_pos; lia).
  assert (Hhb : (0 ≤ sb / 60 / 60)%Z) by (apply Z.div_pos; lia).
  assert (Hrem : ∀ x, (0 ≤ x)%Z → (0 ≤ Z.rem x 60 < 100)%Z).
  { intros x Hx. rewrite Z.rem_mod_nonneg by lia.
    pose proof (Z.mod_pos_bound x 60). lia. }
  pose proof (decimalValue_padStart _ Hha) as Vha.
  pose proof (decimalValue_padStart _ Hhb) as Vhb.
  pose proof (decimalValue_padStart _ (proj1 (Hrem _ Hma))) as Vma.
  pose proof (decimalValue_padStart _ (proj1 (Hrem _ Hmb))) as Vmb.
  pose proof (decimalValue_padStart _ (proj1 (Hrem _ Hsa))) as Vsa.
  pose proof (decimalValue_padStart _ (proj1 (Hrem _ Hsb))) as Vsb.
  destruct (padStart_two_digits _ (Hrem _ Hma)) as (a1 & a2 & Ema).
  destruct (padStart_two_digits _ (Hrem _ Hmb)) as (b1 & b2 & Emb).
  destruct (padStart_two_digits _ (Hrem _ Hsa)) as (a3 & a4 & Esa).
  destruct (padStart_two_digits _ (Hrem _ Hsb)) as (b3 & b4 & Esb).
  rewrite Ema, Emb, Esa, Esb in *.
  intros Heq. apply string_app_cancel in Heq as [Eh Et]; [|done].
  cbv [String.append] in Et. injection Et as -> -> -> ->.
  rewrite Eh in Vha. rewrite Vsa in Vsb. rewrite Vma in Vmb. rewrite Vha in Vhb.
  injection Vsb as Es. injection Vmb as Em. injection Vhb as Eh'.
  rewrite !Z.rem_mod_nonneg in * by lia.
  pose proof (Z.div_mod sa 60). pose proof (Z.div_mod sb 60).
  pose proof (Z.div_mod (sa / 60) 60). pose proof (Z.div_mod (sb / 60) 60).
  lia.
Qed.

Lemma formatUptime_whole_seconds_witness :
  (0 ≤ 61000 ≤ MAX_SAFE_INTEGER)%Z ∧ (0 ≤ 61999 ≤ MAX_SAFE_INTEGER)%Z
  ∧ (formatUptime 61000 = formatUptime 61999 ↔ (61000 / 1000 = 61999 / 1000)%Z).
Proof.
  assert (H1 : (0 ≤ 61000 ≤ MAX_SAFE_INTEGER)%Z) by (vm_compute; split; discriminate).
  assert (H2 : (0 ≤ 61999 ≤ MAX_SAFE_INTEGER)%Z) by (vm_compute; split; discriminate).
  split; [exact H1|]. split; [exact H2|].
  exact (formatUptime_whole_seconds 61000 61999 H1 H2).
Defined.

(** ** Malformed data *)







(** ** Acknowledgments and the sweep *)



